(** * xpub-scan: the report writer [src/actions/saveAnalysis.ts]

    A shallow embedding of the functions of [saveAnalysis.ts] and proofs of
    the properties the specification states about the output object and the
    two reports written from it.

    Conventions of the embedding.

    - A JavaScript string is a [string]; each [ascii] stands for one code
      unit (the Latin-1 range, which holds every character the module itself
      introduces, the filler U+00A4 of [renderAmount] included).
    - A finite JavaScript number is the decimal [coef * 10 ^ expo] that its
      rendering denotes.  This is the value big.js reads when
      [satoshi-bitcoin] converts between units, so the unit conversions are
      exact shifts of the exponent.  Binary rounding of IEEE doubles (which
      starts beyond 15 significant digits), NaN and the infinities are not
      part of the model.
    - Exceptions are a [result]; console and file output is a list of
      [Effect]s, oldest first. *)

From Stdlib Require Import ZArith NArith List String Ascii Bool Lia.
Import ListNotations.
Local Open Scope string_scope.
Local Open Scope Z_scope.

(** ** The JavaScript runtime: strings *)

Module JS.

Definition dq : string := String (ascii_of_nat 34) "".
Definition nl : string := String (ascii_of_nat 10) "".

Fixpoint repeatChar (c : ascii) (n : nat) : string :=
  match n with
  | O => ""
  | S k => String c (repeatChar c k)
  end.

Fixpoint drop (n : nat) (s : string) : string :=
  match n, s with
  | O, _ => s
  | S k, String _ s' => drop k s'
  | S _, "" => ""
  end.

(** [s.substring(0, n)] *)
Definition take (n : nat) (s : string) : string := substring 0 n s.

Fixpoint rev_onto (s acc : string) : string :=
  match s with
  | "" => acc
  | String c s' => rev_onto s' (String c acc)
  end.

Definition rev (s : string) : string := rev_onto s "".

Fixpoint mapChars (f : ascii -> ascii) (s : string) : string :=
  match s with
  | "" => ""
  | String c s' => String (f c) (mapChars f s')
  end.

(** [toLowerCase] on one code unit: A-Z, and the Latin-1 capitals
    U+00C0-U+00DE but for the multiplication sign U+00D7. *)
Definition lowerChar (c : ascii) : ascii :=
  let n := N_of_ascii c in
  if ((65 <=? n) && (n <=? 90))%N then ascii_of_N (n + 32)
  else if ((192 <=? n) && (n <=? 222) && negb (n =? 215))%N then ascii_of_N (n + 32)
  else c.

Definition toLowerCase (s : string) : string := mapChars lowerChar s.

(** The first occurrence of [pat] in [s]: what is before it and after it. *)
Fixpoint cut (pat s : string) : option (string * string) :=
  if prefix pat s then Some ("", drop (String.length pat) s)
  else match s with
       | "" => None
       | String c s' =>
           match cut pat s' with
           | Some (b, a) => Some (String c b, a)
           | None => None
           end
       end.

(** GetSubstitution for a string pattern (no capture groups): [$$], [$&],
    [$`] and [$'] are expanded, every other character stands for itself. *)
Fixpoint substitution (matched before after rep : string) : string :=
  match rep with
  | "" => ""
  | String c r =>
      if Ascii.eqb c "$" then
        match r with
        | String d r' =>
            if Ascii.eqb d "$" then String "$" (substitution matched before after r')
            else if Ascii.eqb d "&" then matched ++ substitution matched before after r'
            else if Ascii.eqb d "`" then before ++ substitution matched before after r'
            else if Ascii.eqb d "'" then after ++ substitution matched before after r'
            else String c (substitution matched before after r)
        | "" => String c ""
        end
      else String c (substitution matched before after r)
  end.

(** [s.replace(pat, rep)] with a string pattern: the first occurrence only. *)
Definition replace (pat rep s : string) : string :=
  match cut pat s with
  | Some (b, a) => b ++ substitution pat b a rep ++ a
  | None => s
  end.

(** [s.split(sep)] *)
Fixpoint splitGo (sep s : string) (skip : nat) (cur : string) : list string :=
  match s with
  | "" => [rev cur]
  | String c s' =>
      match skip with
      | S k => splitGo sep s' k cur
      | O =>
          if prefix sep s
          then rev cur :: splitGo sep s' (String.length sep - 1) ""
          else splitGo sep s' O (String c cur)
      end
  end.

Definition split (sep s : string) : list string :=
  match sep with
  | "" => map (fun c => String c "") (list_ascii_of_string s)
  | _ => splitGo sep s O ""
  end.

(** [l.join(sep)] *)
Definition join (sep : string) (l : list string) : string := concat sep l.

Fixpoint cycle (n : nat) (fill : string) : string :=
  match n with
  | O => ""
  | S k => fill ++ cycle k fill
  end.

Definition padding (n : nat) (fill : string) : string := take n (cycle n fill).

Definition padStart (s : string) (target : nat) (fill : string) : string :=
  if (target <=? String.length s)%nat then s
  else match fill with
       | "" => s
       | _ => padding (target - String.length s) fill ++ s
       end.

Definition padEnd (s : string) (target : nat) (fill : string) : string :=
  if (target <=? String.length s)%nat then s
  else match fill with
       | "" => s
       | _ => s ++ padding (target - String.length s) fill
       end.

(** ** The JavaScript runtime: numbers *)

(** The finite number [coef * 10 ^ expo]. *)
Record number : Set := mkNum { coef : Z; expo : Z }.

Definition ofZ (z : Z) : number := mkNum z 0.

Definition isZero (x : number) : bool := coef x =? 0.

(** [x % 1]: the remainder has the sign of the dividend. *)
Definition rem1 (x : number) : number :=
  if 0 <=? expo x then ofZ 0
  else mkNum (Z.rem (coef x) (10 ^ (- expo x))) (expo x).

(** [Math.trunc(x)] *)
Definition trunc (x : number) : number :=
  if 0 <=? expo x then x
  else ofZ (Z.quot (coef x) (10 ^ (- expo x))).

(** [Number.isInteger(x)] *)
Definition isInteger (x : number) : bool := isZero (rem1 x).

(** [x - y] and [x == y] on numbers. *)
Definition sub (x y : number) : number :=
  let e := Z.min (expo x) (expo y) in
  mkNum (coef x * 10 ^ (expo x - e) - coef y * 10 ^ (expo y - e)) e.

Definition numEq (x y : number) : bool := isZero (sub x y).

(** Decimal digits, least significant first; the fuel is the binary size,
    which is never less than the number of decimal digits. *)
Fixpoint digitsLE (fuel : nat) (n : N) : list N :=
  match fuel with
  | O => []
  | S f => if (n =? 0)%N then [] else (n mod 10)%N :: digitsLE f (n / 10)%N
  end.

Definition digits (n : N) : list N := List.rev (digitsLE (N.to_nat (N.size n)) n).

Definition digitChar (d : N) : ascii := ascii_of_N (48 + d).

Fixpoint showDigits (ds : list N) : string :=
  match ds with
  | [] => ""
  | d :: r => String (digitChar d) (showDigits r)
  end.

(** The decimal numeral of a natural number: ["0"] for zero. *)
Definition showN (n : N) : string :=
  match n with
  | N0 => "0"
  | _ => showDigits (digits n)
  end.

(** The decimal numeral of an integer. *)
Definition showZ (z : Z) : string :=
  if z <? 0 then "-" ++ showN (Z.abs_N z) else showN (Z.abs_N z).

Fixpoint stripLeadingZeros (ds : list N) : list N :=
  match ds with
  | 0%N :: r => stripLeadingZeros r
  | _ => ds
  end.

Definition stripTrailingZeros (ds : list N) : list N :=
  List.rev (stripLeadingZeros (List.rev ds)).

(** Number::toString (radix 10) of a positive number with significant
    digits [ds] (no trailing zero), [k] of them, whose value is
    [0.ds * 10 ^ n]. *)
Definition showPositive (ds : list N) (n : Z) : string :=
  let k := Z.of_nat (List.length ds) in
  if (k <=? n) && (n <=? 21) then
    showDigits ds ++ repeatChar "0" (Z.to_nat (n - k))
  else if (0 <? n) && (n <=? 21) then
    showDigits (firstn (Z.to_nat n) ds) ++ "." ++ showDigits (skipn (Z.to_nat n) ds)
  else if (-6 <? n) && (n <=? 0) then
    "0." ++ repeatChar "0" (Z.to_nat (- n)) ++ showDigits ds
  else
    let e := n - 1 in
    let mantissa :=
      match ds with
      | [d] => showDigits [d]
      | _ => showDigits (firstn 1 ds) ++ "." ++ showDigits (skipn 1 ds)
      end in
    mantissa ++ "e" ++ (if e <? 0 then "-" else "+") ++ showN (Z.abs_N e).

(** [String(x)], that is Number::toString. *)
Definition toString (x : number) : string :=
  if isZero x then "0"
  else
    let all := digits (Z.abs_N (coef x)) in
    let body := showPositive (stripTrailingZeros all)
                             (Z.of_nat (List.length all) + expo x) in
    if coef x <? 0 then "-" ++ body else body.

(** [x.toFixed(f)]: [x] rounded to [f] decimals, half away from zero (exact
    when [x] has at most [f] decimals, as every amount rendered below has);
    from 10^21 on, the rendering of [toString]. *)
Definition toFixed (x : number) (f : nat) : string :=
  let a := Z.abs (coef x) in
  let big :=
    if 0 <=? expo x then 10 ^ 21 <=? a * 10 ^ expo x
    else 10 ^ (21 - expo x) <=? a in
  let s := if coef x <? 0 then "-" else "" in
  if big then toString x
  else
    let p := - (expo x + Z.of_nat f) in
    let n := if 0 <? p then (a + 5 * 10 ^ (p - 1)) / 10 ^ p else a * 10 ^ (- p) in
    let m := showN (Z.to_N n) in
    let m := match f with
             | O => m
             | _ =>
                 let m := repeatChar "0" (S f - String.length m) ++ m in
                 let k := String.length m in
                 take (k - f) m ++ "." ++ drop (k - f) m
             end in
    s ++ m.

Definition isDigit (c : ascii) : bool :=
  let n := N_of_ascii c in ((48 <=? n) && (n <=? 57))%N.

Definition digitVal (c : ascii) : N := (N_of_ascii c - 48)%N.

Fixpoint spanDigits (s : string) : list N * string :=
  match s with
  | "" => ([], "")
  | String c s' =>
      if isDigit c
      then let (ds, r) := spanDigits s' in (digitVal c :: ds, r)
      else ([], s)
  end.

Definition valDigits (ds : list N) : N :=
  fold_left (fun acc d => (10 * acc + d)%N) ds 0%N.

(** ExponentPart, or nothing, up to the end of the string. *)
Definition parseExponent (s : string) : option Z :=
  match s with
  | "" => Some 0
  | String c r =>
      if Ascii.eqb c "e" || Ascii.eqb c "E" then
        let '(neg, r1) :=
          match r with
          | String d r' =>
              if Ascii.eqb d "-" then (true, r')
              else if Ascii.eqb d "+" then (false, r')
              else (false, r)
          | "" => (false, r)
          end in
        match spanDigits r1 with
        | (x :: xs, "") =>
            let v := Z.of_N (valDigits (x :: xs)) in
            Some (if neg then - v else v)
        | _ => None
        end
      else None
  end.

(** StrUnsignedDecimalLiteral, the literal [Infinity] apart. *)
Definition parseUnsigned (s : string) : option number :=
  let (ip, r) := spanDigits s in
  let (fp, r2) :=
    match r with
    | String c r' => if Ascii.eqb c "." then spanDigits r' else ([], r)
    | "" => ([], r)
    end in
  match (ip ++ fp)%list with
  | [] => None
  | ds =>
      match parseExponent r2 with
      | Some x => Some (mkNum (Z.of_N (valDigits ds)) (x - Z.of_nat (List.length fp)))
      | None => None
      end
  end.

(** [Number(s)], StringToNumber, on decimal literals: the empty string is 0.
    [None] is NaN; the strings that reach this function below are written by
    [toString], so no white space, [Infinity] or radix prefix is read. *)
Definition StringToNumber (s : string) : option number :=
  match s with
  | "" => Some (ofZ 0)
  | String c r =>
      if Ascii.eqb c "-" then
        match parseUnsigned r with
        | Some x => Some (mkNum (- coef x) (expo x))
        | None => None
        end
      else if Ascii.eqb c "+" then parseUnsigned r
      else parseUnsigned s
  end.

(** [s == 0] for a string [s]: the string is turned into a number first. *)
Definition looseEqZero (s : string) : bool :=
  match StringToNumber s with
  | Some x => isZero x
  | None => false
  end.

(** [!s] for a string that may be undefined. *)
Definition falsy (s : option string) : bool :=
  match s with
  | None => true
  | Some "" => true
  | Some _ => false
  end.

(** [toLocaleLowerCase]: the locale plays no part on the code units of the
    model. *)
Definition toLocaleLowerCase (s : string) : string := toLowerCase s.

End JS.

(** ** Exceptions *)

Inductive result (A : Type) : Type :=
| Ok (a : A)
| Throw (e : string).
Arguments Ok {A} a.
Arguments Throw {A} e.

Definition bind {A B : Type} (r : result A) (k : A -> result B) : result B :=
  match r with
  | Ok a => k a
  | Throw e => Throw e
  end.

Notation "x <- r ;; k" := (bind r (fun x => k))
  (at level 61, r at next level, right associativity).
Notation "' p <- r ;; k" := (bind r (fun x => match x with p => k end))
  (at level 61, p pattern, r at next level, right associativity).

Fixpoint mapM {A B : Type} (f : A -> result B) (l : list A) : result (list B) :=
  match l with
  | [] => Ok []
  | a :: r => b <- f a ;; bs <- mapM f r ;; Ok (b :: bs)
  end.

(** ** The package satoshi-bitcoin

    Its two functions, after the package: the argument is read by big.js and
    multiplied or divided by 10^8; [toBitcoin] refuses what is not a whole
    number, and first turns a string into a number. *)

Module sb.

Import JS.

Definition toSatoshi (bitcoin : number) : number :=
  mkNum (coef bitcoin) (expo bitcoin + 8).

Definition toBitcoin (satoshi : string) : result number :=
  match StringToNumber satoshi with
  | Some n =>
      if isInteger n then Ok (mkNum (coef n) (expo n - 8))
      else Throw "toBitcoin must be called on a whole number or string format whole number"
  | None =>
      Throw "toBitcoin must be called on a whole number or string format whole number"
  end.

End sb.

Import JS.

(** ** The data handed to [save], and the object it builds *)

(** [settings.ts]: the shape of [configuration]. *)
Record DefaultAPI : Set := { bch : string; general : string }.

Record Configuration : Set := {
  currency : string;
  symbol : string;
  providerType : string;
  customAPI : option string;
  defaultAPI : DefaultAPI
}.

Record Derivation : Set := { account : number; index : number }.

(** The first argument of [save]. *)
Record Meta : Set := { version : string; xpub : string; date : string }.

(** The second argument of [save]: amounts are numbers. *)
Module Data.

Record Stats : Set := { funded : number; spent : number }.

Module Address.
Record t : Set := {
  addressType : string;
  getDerivation : Derivation;
  toString : string;
  asCashAddress : option string;
  balance : number;
  stats : Stats
}.
End Address.

Module Summary.
Record t : Set := { addressType : string; balance : number }.
End Summary.

Module Operation.
Record t : Set := {
  date : string;
  block : number;
  txid : string;
  address : string;
  cashAddress : option string;
  amount : number;
  operationType : string
}.
End Operation.

Module Imported.
Record t : Set := {
  date : string;
  txid : string;
  address : option string;
  amount : number;
  operationType : string
}.
End Imported.

Module Comparison.
Record t : Set := {
  imported : option Imported.t;
  actual : option Operation.t;
  status : string
}.
End Comparison.

Record t : Set := {
  addresses : list Address.t;
  summary : list Summary.t;
  transactions : list Operation.t;
  comparisons : option (list Comparison.t)
}.

End Data.

(** The object [save] builds: amounts are strings. *)
Module Out.

Inductive value : Set :=
| Str (s : string)
| Num (n : number).

(** The string a property value becomes in a concatenation. *)
Definition show (v : option value) : string :=
  match v with
  | Some (Str s) => s
  | Some (Num n) => JS.toString n
  | None => "undefined"
  end.

(** An object literal: its properties in the order they are written. *)
Definition object : Set := list (string * value).

Definition keys (o : object) : list string := map fst o.

Fixpoint get (k : string) (o : object) : option value :=
  match o with
  | [] => None
  | (k', v) :: r => if String.eqb k k' then Some v else get k r
  end.

Module Address.
Record t : Set := {
  addressType : string;
  derivation : Derivation;
  address : string;
  cashAddress : option string;
  balance : string;
  funded : string;
  spent : string
}.
End Address.

Module Summary.
Record t : Set := { addressType : string; balance : string }.
End Summary.

Module Operation.
Record t : Set := {
  date : string;
  block : number;
  txid : string;
  address : string;
  cashAddress : option string;
  amount : string;
  operationType : string
}.
End Operation.

Module Imported.
Record t : Set := {
  date : string;
  txid : string;
  address : option string;
  amount : string;
  operationType : string
}.
End Imported.

Module Comparison.
Record t : Set := {
  imported : option Imported.t;
  actual : option Operation.t;
  status : string
}.
End Comparison.

Record t : Set := {
  meta : object;
  addresses : list Address.t;
  summary : list Summary.t;
  transactions : list Operation.t;
  comparisons : option (list Comparison.t)
}.

End Out.

(** What [console.log] and [fs.writeFile] leave behind.  The callback of
    [fs.writeFile], which logs an error of the file system, is not part of
    the model. *)
Inductive Effect : Set :=
| ConsoleLog (text : string)
| WriteFile (path content : string).

(** ** [saveAnalysis.ts] *)

Section SaveAnalysis.

(** [settings.ts], [helpers.ts] and [templates/report.html.ts] are outside
    this module, and so are the runtime's [JSON.stringify], [__dirname]
    and html-minifier's [minify] (with the options of [saveHTML]). *)
Variable configuration : Configuration.
Variable GAP_LIMIT : number.
Variable EXTERNAL_EXPLORER_URL : string.
Variable reportTemplate : string.
Variable toUnprefixedCashAddress : string -> option string.
Variable stringify : Out.t -> string.
Variable minify : string -> string.
Variable dirname : string.

Definition toBaseUnit (amount : number) : string :=
  (* to bitcoins (or equivalent unit) *)
  let n := sb.toSatoshi amount in
  (* if is float, truncate (no float expected) *)
  let n := if negb (isZero (rem1 n)) then trunc n else n in
  toString n.

Definition filler : string := String (ascii_of_nat 164) "".

(** align float numbers or zeros; [amount] is a field of the object built
    by [save], a string, hence the non-strict equality. *)
Definition renderAmount (amount : string) : result string :=
  let decimalPrecision := 8%nat in
  n <- (if looseEqZero amount
        then Ok (padEnd "0" (decimalPrecision + 2) filler)
        else (b <- sb.toBitcoin amount ;; Ok (toFixed b decimalPrecision))) ;;
  let n := padStart n (decimalPrecision * 2) filler in
  Ok ("<span class=" ++ dq ++ "monospaced" ++ dq ++ ">"
      ++ join "&nbsp;" (split filler n) ++ "</span>").

Definition getCoinName : string :=
  replace " " "-" (toLowerCase (currency configuration)).

(** make address clickable *)
Definition addressAsLink (address : option string) : string :=
  match address with
  | None => ""
  | Some address =>
      let url :=
        replace "{item}" address
          (replace "{type}" "address"
             (replace "{coin}" getCoinName EXTERNAL_EXPLORER_URL)) in
      let address :=
        if (String.length address <? 45)%nat then address
        else take 45 address ++ "..." in
      "<a class=" ++ dq ++ "monospaced" ++ dq ++ " href=" ++ dq ++ url ++ dq
      ++ " target=_blank>" ++ address ++ "</a>"
  end.

Definition renderAddress (address cashAddress : option string) : string :=
  let renderedAddress := addressAsLink address in
  if negb (String.eqb (symbol configuration) "BCH") || falsy cashAddress
  then renderedAddress
  else renderedAddress ++ "</br>" ++ addressAsLink cashAddress.

(** make TXID clickable *)
Definition renderTxid (txid : string) : string :=
  let url :=
    replace "{item}" txid
      (replace "{type}" "transaction"
         (replace "{coin}" getCoinName EXTERNAL_EXPLORER_URL)) in
  let txid := take 10 txid ++ "..." in
  "<a class=" ++ dq ++ "monospaced" ++ dq ++ " href=" ++ dq ++ url ++ dq
  ++ " target=_blank>" ++ txid ++ "</a>".

(** explain some operation types *)
Definition createTooltip (opType : string) : string :=
  if String.eqb opType "Sent" || String.eqb opType "Received" then opType
  else
    let tooltip :=
      if String.eqb opType "Received (non-sibling to change)" then
        "
        <span class=" ++ dq ++ "tooltiptext" ++ dq ++ ">
            Change address that received funds from an address NOT belonging to the same xpub
        </span>
        "
      else if String.eqb opType "Sent to self" then
        "
        <span class=" ++ dq ++ "tooltiptext" ++ dq ++ ">
            Sent to itself (same address)
        </span>
        "
      else if String.eqb opType "Sent to sibling" then
        "
        <span class=" ++ dq ++ "tooltiptext" ++ dq ++ ">
            Sent to another address, belonging to the same xpub (sibling)
        </span>
        "
      else "" in
    "<div class=" ++ dq ++ "tooltip" ++ dq ++ ">" ++ opType ++ tooltip ++ "</div>".

(** The loops of [saveHTML]: what one element pushes. *)

Definition summaryCells (e : Out.Summary.t) : result (list string) :=
  balance <- sb.toBitcoin (Out.Summary.balance e) ;;
  Ok [ "<tr><td>" ++ Out.Summary.addressType e ++ "</td>";
       (if isZero balance
        then "<td class=" ++ dq ++ "summary_empty" ++ dq ++ ">"
        else "<td class=" ++ dq ++ "summary_non_empty" ++ dq ++ ">");
       toString balance ++ "</td></tr>" ].

Definition addressCells (e : Out.Address.t) : result (list string) :=
  let derivationPath :=
    "m/" ++ toString (account (Out.Address.derivation e))
    ++ "/" ++ toString (index (Out.Address.derivation e)) in
  balance <- renderAmount (Out.Address.balance e) ;;
  funded <- renderAmount (Out.Address.funded e) ;;
  spent <- renderAmount (Out.Address.spent e) ;;
  Ok [ "<tr><td>" ++ Out.Address.addressType e ++ "</td>";
       "<td>" ++ derivationPath ++ "</td>";
       "<td>" ++ renderAddress (Some (Out.Address.address e))
                               (Out.Address.cashAddress e) ++ "</td>";
       "<td>" ++ balance ++ "</td>";
       "<td>" ++ funded ++ "</td>";
       "<td>" ++ spent ++ "</td></tr>" ].

Definition transactionCells (e : Out.Operation.t) : result (list string) :=
  amount <- renderAmount (Out.Operation.amount e) ;;
  Ok [ "<tr><td>" ++ Out.Operation.date e ++ "</td>";
       "<td>" ++ toString (Out.Operation.block e) ++ "</td>";
       "<td>" ++ renderTxid (Out.Operation.txid e) ++ "</td>";
       "<td>" ++ renderAddress (Some (Out.Operation.address e))
                               (Out.Operation.cashAddress e) ++ "</td>";
       "<td>" ++ amount ++ "</td>";
       "<td>" ++ createTooltip (Out.Operation.operationType e) ++ "</td></tr>" ].

(** One side of a comparison as it is shown, with the txid and the
    operation type it contributes. *)
Record Side : Set := {
  sideDate : string;
  sideAddress : string;
  sideAmount : string
}.

Definition comparisonCells (e : Out.Comparison.t) : result (list string) :=
  let txid := "" in
  let opType := "" in
  (* by default: no imported operation *)
  '(imported, txid, opType) <-
    match Out.Comparison.imported e with
    | Some i =>
        amount <- renderAmount (Out.Imported.amount i) ;;
        Ok ({| sideDate := Out.Imported.date i;
               sideAddress := renderAddress (Out.Imported.address i) None;
               sideAmount := amount |},
            Out.Imported.txid i, Out.Imported.operationType i)
    | None =>
        Ok ({| sideDate := ""; sideAddress := "(no operation)"; sideAmount := "" |},
            txid, opType)
    end ;;
  (* by default: no actual operation *)
  '(actual, txid, opType) <-
    match Out.Comparison.actual e with
    | Some a =>
        amount <- renderAmount (Out.Operation.amount a) ;;
        Ok ({| sideDate := Out.Operation.date a;
               sideAddress := renderAddress (Some (Out.Operation.address a))
                                            (Out.Operation.cashAddress a);
               sideAmount := amount |},
            Out.Operation.txid a, Out.Operation.operationType a)
    | None =>
        Ok ({| sideDate := ""; sideAddress := "(no operation)"; sideAmount := "" |},
            txid, opType)
    end ;;
  Ok [ (if String.eqb (Out.Comparison.status e) "Match"
        then "<tr class=" ++ dq ++ "comparison_match" ++ dq ++ ">"
        else "<tr class=" ++ dq ++ "comparison_mismatch" ++ dq ++ ">");
       "<td>" ++ sideDate imported ++ "</td>";
       "<td>" ++ sideAddress imported ++ "</td>";
       "<td>" ++ sideAmount imported ++ "</td>";
       "<td>" ++ sideDate actual ++ "</td>";
       "<td>" ++ sideAddress actual ++ "</td>";
       "<td>" ++ sideAmount actual ++ "</td>";
       "<td>" ++ renderTxid txid ++ "</td>";
       "<td>" ++ createTooltip opType ++ "</td>";
       "<td>" ++ Out.Comparison.status e ++ "</td></tr>" ].

Definition comparisonsTemplate : string :=
  "
        <li class=" ++ dq ++ "tab" ++ dq ++ ">
        <input type=" ++ dq ++ "radio" ++ dq ++ " name=" ++ dq ++ "tabs" ++ dq ++ " id=" ++ dq ++ "tab4" ++ dq ++ " />
        <label for=" ++ dq ++ "tab4" ++ dq ++ ">Comparisons</label>
        <div id=" ++ dq ++ "tab-content4" ++ dq ++ " class=" ++ dq ++ "content" ++ dq ++ ">
        <table>
            <thead>
                <tr style=" ++ dq ++ "text-align: center" ++ dq ++ ">
                    <th rowspan=" ++ dq ++ "1" ++ dq ++ " colspan=" ++ dq ++ "3" ++ dq ++ ">Imported</th>
                    <th rowspan=" ++ dq ++ "1" ++ dq ++ " colspan=" ++ dq ++ "3" ++ dq ++ ">Actual</th>
                    <th rowspan=" ++ dq ++ "2" ++ dq ++ " colspan=" ++ dq ++ "1" ++ dq ++ ">TXID</th>
                    <th rowspan=" ++ dq ++ "2" ++ dq ++ " colspan=" ++ dq ++ "1" ++ dq ++ ">Type</th>
                    <th rowspan=" ++ dq ++ "2" ++ dq ++ " colspan=" ++ dq ++ "1" ++ dq ++ ">Status</th>
                </tr>
                <tr>
                    <th>Date</th>
                    <th>Address</th>
                    <th>Amount</th>
                    <th>Date</th>
                    <th>Address</th>
                    <th>Amount</th>
                </tr>
            </thead>
            <tbody>
                {comparisons}
            </tbody>
        </table>
        </div>
        </li>
        ".

Definition warningText : string :=
  "Default provider used: only the last ~50 operations by address are displayed".

(** The rows of one table: every element pushes its cells, in order. *)
Definition cellsOf {A : Set} (f : A -> result (list string)) (l : list A)
  : result (list string) :=
  rows <- mapM f l ;; Ok (List.concat rows).

(** The loop over the keys of [object.meta]. *)
Definition metaStage (object : Out.t) (report : string) : string :=
  fold_left
    (fun report key =>
       join (Out.show (Out.get key (Out.meta object)))
            (split ("{" ++ key ++ "}") report))
    (Out.keys (Out.meta object)) report.

(** display warning if default provider is being used *)
Definition warningStage (object : Out.t) (report : string) : string :=
  match Out.get "provider" (Out.meta object) with
  | Some (Out.Str "default") => replace "{warning}" warningText report
  | _ => replace "{warning}" "" report
  end.

(** The report before it is minified. *)
Definition renderReport (object : Out.t) : result string :=
  let report := reportTemplate in
  (* meta *)
  let report := metaStage object report in
  (* summary *)
  summary <- cellsOf summaryCells (Out.summary object) ;;
  let report := replace "{summary}" (join "" summary) report in
  (* addresses *)
  addresses <- cellsOf addressCells (Out.addresses object) ;;
  let report := replace "{addresses}" (join "" addresses) report in
  (* transactions *)
  (* display warning if default provider is being used *)
  let report := warningStage object report in
  transactions <- cellsOf transactionCells (Out.transactions object) ;;
  let report := replace "{transactions}" (join "" transactions) report in
  (* comparisons *)
  comparisons <-
    match Out.comparisons object with
    | Some l => cellsOf comparisonCells l
    | None => Ok []
    end ;;
  let comparisonTable :=
    replace "{comparisons}" (join "" comparisons) comparisonsTemplate in
  let report :=
    match comparisons with
    | [] => replace "{comparisons}" "" report
    | _ => replace "{comparisons}" comparisonTable report
    end in
  Ok report.

Definition saveHTML (object : Out.t) (directory : string) : result (list Effect) :=
  report <- renderReport object ;;
  let filepath :=
    directory ++ "/" ++ Out.show (Out.get "xpub" (Out.meta object)) ++ ".html" in
  let minifiedReport := minify report in
  Ok [ WriteFile filepath minifiedReport;
       ConsoleLog ("HTML report saved: " ++ filepath) ].

Definition saveJSON (object : Out.t) (directory : string) : list Effect :=
  let JSONobject := stringify object in
  let filepath :=
    directory ++ "/" ++ Out.show (Out.get "xpub" (Out.meta object)) ++ ".json" in
  if String.eqb (toLocaleLowerCase directory) "stdout" then
    (* display *)
    [ ConsoleLog JSONobject ]
  else
    (* save file *)
    [ WriteFile filepath JSONobject;
      ConsoleLog (nl ++ "JSON export saved: " ++ filepath) ].

(** The constants of [save], in the order it computes them. *)

  (* convert amounts into base unit *)
Definition addressesOf (data : Data.t) : list Out.Address.t :=
  map (fun e =>
         {| Out.Address.addressType := Data.Address.addressType e;
            Out.Address.derivation := Data.Address.getDerivation e;
            Out.Address.address := Data.Address.toString e;
            Out.Address.cashAddress := Data.Address.asCashAddress e;
            Out.Address.balance := toBaseUnit (Data.Address.balance e);
            Out.Address.funded := toBaseUnit (Data.funded (Data.Address.stats e));
            Out.Address.spent := toBaseUnit (Data.spent (Data.Address.stats e)) |})
      (Data.addresses data).

Definition summaryOf (data : Data.t) : list Out.Summary.t :=
  map (fun e =>
         {| Out.Summary.addressType := Data.Summary.addressType e;
            Out.Summary.balance := toBaseUnit (Data.Summary.balance e) |})
      (Data.summary data).

Definition operationOf (e : Data.Operation.t) : Out.Operation.t :=
  {| Out.Operation.date := Data.Operation.date e;
     Out.Operation.block := Data.Operation.block e;
     Out.Operation.txid := Data.Operation.txid e;
     Out.Operation.address := Data.Operation.address e;
     Out.Operation.cashAddress := toUnprefixedCashAddress (Data.Operation.address e);
     Out.Operation.amount := toBaseUnit (Data.Operation.amount e);
     Out.Operation.operationType := Data.Operation.operationType e |}.

Definition transactionsOf (data : Data.t) : list Out.Operation.t :=
  map operationOf (Data.transactions data).

Definition importedOf (e : Data.Imported.t) : Out.Imported.t :=
  {| Out.Imported.date := Data.Imported.date e;
     Out.Imported.txid := Data.Imported.txid e;
     Out.Imported.address := Data.Imported.address e;
     Out.Imported.amount := toBaseUnit (Data.Imported.amount e);
     Out.Imported.operationType := Data.Imported.operationType e |}.

Definition comparisonsOf (data : Data.t) : option (list Out.Comparison.t) :=
  match Data.comparisons data with
  | Some l =>
      Some (map (fun e =>
                   {| Out.Comparison.imported :=
                        match Data.Comparison.imported e with
                        | Some i => Some (importedOf i)
                        | None => None
                        end;
                      Out.Comparison.actual :=
                        match Data.Comparison.actual e with
                        | Some a => Some (operationOf a)
                        | None => None
                        end;
                      Out.Comparison.status := Data.Comparison.status e |})
                l)
  | None => None
  end.

Definition providerURL : string :=
  match customAPI configuration with
  | Some url => url
  | None =>
      if String.eqb (symbol configuration) "BCH"
      then bch (defaultAPI configuration)
      else general (defaultAPI configuration)
  end.

Definition objectOf (meta : Meta) (data : Data.t) : Out.t :=
  {| Out.meta :=
       [ ("by", Out.Str "xpub scan <https://github.com/LedgerHQ/xpub-scan>");
         ("version", Out.Str (version meta));
         ("xpub", Out.Str (xpub meta));
         ("analysis_date", Out.Str (date meta));
         ("currency", Out.Str (currency configuration));
         ("provider", Out.Str (providerType configuration));
         ("provider_url", Out.Str providerURL);
         ("gap_limit", Out.Num GAP_LIMIT);
         ("unit", Out.Str "Base unit (i.e., satoshis or equivalent unit)") ];
     Out.addresses := addressesOf data;
     Out.summary := summaryOf data;
     Out.transactions := transactionsOf data;
     Out.comparisons := comparisonsOf data |}.

(** What [save] does: its effects, and whether it returned or threw. *)
Definition save (meta : Meta) (data : Data.t) (directory : string)
  : list Effect * result unit :=
  let object := objectOf meta data in
  (* if no filepath/filename specify -> set to current directory *)
  let directory := if String.eqb directory "" then dirname else directory in
  let json := saveJSON object directory in
  if negb (String.eqb (toLocaleLowerCase directory) "stdout") then
    match saveHTML object directory with
    | Ok html => ((json ++ html)%list, Ok tt)
    | Throw e => (json, Throw e)
    end
  else (json, Ok tt).

(** ** Vocabulary of the statements *)

(** The amount in base units, as the specification has it: the amount times
    10^8, cut toward zero. *)
Definition baseUnits (amount : number) : Z :=
  if 0 <=? expo amount + 8
  then coef amount * 10 ^ (expo amount + 8)
  else Z.quot (coef amount) (10 ^ (- (expo amount + 8))).

(** [x] is the integer [v]. *)
Definition denotes (x : number) (v : Z) : Prop :=
  (0 <= expo x /\ v = coef x * 10 ^ expo x)
  \/ (expo x < 0 /\ coef x = v * 10 ^ (- expo x)).

(** The integer a string stands for, when [Number] makes it one. *)
Definition toInteger (s : string) : option Z :=
  match StringToNumber s with
  | Some x => if isInteger x
              then Some (if 0 <=? expo x then coef x * 10 ^ expo x
                         else coef x / 10 ^ (- expo x))
              else None
  | None => None
  end.

(** A decimal integer numeral: an optional minus sign and one digit or
    more. *)
Fixpoint allDigits (s : string) : bool :=
  match s with
  | "" => true
  | String c r => isDigit c && allDigits r
  end.

Definition isIntegerString (s : string) : bool :=
  match s with
  | "" => false
  | String c r =>
      if Ascii.eqb c "-"
      then negb (String.eqb r "") && allDigits r
      else allDigits s
  end.

(** Digits, least significant first: their value, and the lists that are
    the digits of a number. *)
Fixpoint valLE (ds : list N) : N :=
  match ds with
  | [] => 0
  | d :: r => d + 10 * valLE r
  end.

Definition canonical (ds : list N) : Prop :=
  Forall (fun d => (d < 10)%N) ds /\ last ds 1%N <> 0%N.

Definition startsNonDigit (s : string) : Prop :=
  match s with
  | "" => True
  | String c _ => isDigit c = false
  end.

(** An amount that is a whole number of base units. *)
Definition wholeBaseUnits (amount : number) : Prop :=
  isInteger (sb.toSatoshi amount) = true.

(** The balance invariant on a scanned address, and on the integers of its
    entry in the output object. *)
Definition balanceInvariant (e : Data.Address.t) : Prop :=
  numEq (Data.Address.balance e)
        (sub (Data.funded (Data.Address.stats e))
             (Data.spent (Data.Address.stats e))) = true.

Definition balanceInvariantOut (o : Out.Address.t) : Prop :=
  exists b f s,
    toInteger (Out.Address.balance o) = Some b
    /\ toInteger (Out.Address.funded o) = Some f
    /\ toInteger (Out.Address.spent o) = Some s
    /\ b = f - s.

(** An element of the output object carries the amounts of the element it
    comes from, each through [toBaseUnit]. *)
Definition addressInBaseUnits (e : Data.Address.t) (o : Out.Address.t) : Prop :=
  Out.Address.balance o = toBaseUnit (Data.Address.balance e)
  /\ Out.Address.funded o = toBaseUnit (Data.funded (Data.Address.stats e))
  /\ Out.Address.spent o = toBaseUnit (Data.spent (Data.Address.stats e)).

Definition summaryInBaseUnits (e : Data.Summary.t) (o : Out.Summary.t) : Prop :=
  Out.Summary.balance o = toBaseUnit (Data.Summary.balance e).

Definition operationInBaseUnits (e : Data.Operation.t) (o : Out.Operation.t) : Prop :=
  Out.Operation.amount o = toBaseUnit (Data.Operation.amount e).

Definition importedInBaseUnits (e : Data.Imported.t) (o : Out.Imported.t) : Prop :=
  Out.Imported.amount o = toBaseUnit (Data.Imported.amount e).

Definition optionRel {A B : Type} (R : A -> B -> Prop)
  (x : option A) (y : option B) : Prop :=
  match x, y with
  | Some a, Some b => R a b
  | None, None => True
  | _, _ => False
  end.

Definition comparisonInBaseUnits (e : Data.Comparison.t) (o : Out.Comparison.t) : Prop :=
  optionRel importedInBaseUnits (Data.Comparison.imported e) (Out.Comparison.imported o)
  /\ optionRel operationInBaseUnits (Data.Comparison.actual e) (Out.Comparison.actual o).

(** ** Sample inputs *)

Definition exampleConfiguration : Configuration :=
  {| currency := "Bitcoin";
     symbol := "BTC";
     providerType := "default";
     customAPI := None;
     defaultAPI := {| bch := "https://bch.example/api";
                      general := "https://btc.example/api" |} |}.

Definition exampleMeta : Meta :=
  {| version := "0.0.1"; xpub := "xpub6C"; date := "2020-11-02" |}.

Definition exampleTemplate : string :=
  "<html><p>{xpub}</p><p>{warning}</p>{summary}{addresses}{transactions}{comparisons}</html>".

Definition exampleExplorer : string := "https://explorer.example/{coin}/{type}/{item}".

Definition exampleAddress : string := "1MYaYeZhDpgm3YtvqBMXQQNabYCzc7NqgF".

(** An address that received 0.5 and spent 0.2. *)
Definition wholeAddress : Data.Address.t :=
  {| Data.Address.addressType := "Legacy";
     Data.Address.getDerivation := {| account := ofZ 0; index := ofZ 3 |};
     Data.Address.toString := exampleAddress;
     Data.Address.asCashAddress := None;
     Data.Address.balance := mkNum 3 (-1);
     Data.Address.stats := {| Data.funded := mkNum 5 (-1); Data.spent := mkNum 2 (-1) |} |}.

(** An address that received 0.0048828125 (5/1024) and spent 0.001953125
    (1/512): halves and quarters of a base unit. *)
Definition fractionalAddress : Data.Address.t :=
  {| Data.Address.addressType := "Legacy";
     Data.Address.getDerivation := {| account := ofZ 0; index := ofZ 4 |};
     Data.Address.toString := exampleAddress;
     Data.Address.asCashAddress := None;
     Data.Address.balance := mkNum 29296875 (-10);
     Data.Address.stats := {| Data.funded := mkNum 48828125 (-10);
                              Data.spent := mkNum 1953125 (-9) |} |}.

Definition dataOf (a : Data.Address.t) : Data.t :=
  {| Data.addresses := [a];
     Data.summary := [ {| Data.Summary.addressType := "Legacy";
                          Data.Summary.balance := Data.Address.balance a |} ];
     Data.transactions := [];
     Data.comparisons := None |}.

Definition exampleData : Data.t := dataOf wholeAddress.

(** ** Occurrences in strings *)

(** [w] occurs in [s]. *)
Definition contains (w s : string) : Prop :=
  exists before after, s = before ++ w ++ after.

(** One of the two strings begins with the other. *)
Definition comparable (x y : string) : bool := prefix x y || prefix y x.

(** An occurrence of [pat] and an occurrence of [w] can share a position:
    one of them begins with, or is begun by, what is left of the other
    from some position on. *)
Definition clash (pat w : string) : bool :=
  existsb (fun q => comparable (drop q w) pat) (seq 0 (String.length w))
  || existsb (fun p => comparable (drop p pat) w) (seq 0 (String.length pat)).

(** ** Vocabulary of the further properties *)

(** A string [sb.toBitcoin] accepts: [Number] makes it a whole number. *)
Definition isWholeNumberString (s : string) : bool :=
  match StringToNumber s with
  | Some x => isInteger x
  | None => false
  end.

(** The amounts [saveHTML] renders, in the order it meets them. *)
Definition addressAmounts (e : Out.Address.t) : list string :=
  [ Out.Address.balance e; Out.Address.funded e; Out.Address.spent e ].

Definition comparisonAmounts (e : Out.Comparison.t) : list string :=
  (match Out.Comparison.imported e with
   | Some i => [ Out.Imported.amount i ]
   | None => []
   end
   ++ match Out.Comparison.actual e with
      | Some a => [ Out.Operation.amount a ]
      | None => []
      end)%list.

Definition amountsOf (object : Out.t) : list string :=
  (map Out.Summary.balance (Out.summary object)
   ++ flat_map addressAmounts (Out.addresses object)
   ++ map Out.Operation.amount (Out.transactions object)
   ++ match Out.comparisons object with
      | Some l => flat_map comparisonAmounts l
      | None => []
      end)%list.

(** The message of the exception of [sb.toBitcoin]. *)
Definition notWhole : string :=
  "toBitcoin must be called on a whole number or string format whole number".

(** The character [c] does not occur in [s]. *)
Fixpoint lacks (c : ascii) (s : string) : bool :=
  match s with
  | "" => true
  | String d r => negb (Ascii.eqb d c) && lacks c r
  end.

(** A stage of the report that only touches what follows the first opening
    brace: it keeps the text before it, and a text without braces. *)
Definition gentle (stage : string -> string) : Prop :=
  (forall pre rest, lacks "{" pre = true ->
                    exists rest', stage (pre ++ rest) = pre ++ rest')
  /\ (forall s, lacks "{" s = true -> stage s = s).

(** A configuration for an asset whose name has two spaces. *)
Definition cashConfiguration : Configuration :=
  {| currency := "Bitcoin Cash ABC";
     symbol := "BCH";
     providerType := "custom";
     customAPI := Some "https://custom.example/api";
     defaultAPI := {| bch := "https://bch.example/api";
                      general := "https://btc.example/api" |} |}.

(** An element of the output object keeps what is not an amount; the cash
    address of an operation is computed from its address. *)
Definition operationKept (e : Data.Operation.t) (o : Out.Operation.t) : Prop :=
  Out.Operation.date o = Data.Operation.date e
  /\ Out.Operation.block o = Data.Operation.block e
  /\ Out.Operation.txid o = Data.Operation.txid e
  /\ Out.Operation.address o = Data.Operation.address e
  /\ Out.Operation.operationType o = Data.Operation.operationType e
  /\ Out.Operation.cashAddress o = toUnprefixedCashAddress (Data.Operation.address e).

Definition importedKept (e : Data.Imported.t) (o : Out.Imported.t) : Prop :=
  Out.Imported.date o = Data.Imported.date e
  /\ Out.Imported.txid o = Data.Imported.txid e
  /\ Out.Imported.address o = Data.Imported.address e
  /\ Out.Imported.operationType o = Data.Imported.operationType e.

Definition comparisonKept (e : Data.Comparison.t) (o : Out.Comparison.t) : Prop :=
  Out.Comparison.status o = Data.Comparison.status e
  /\ optionRel importedKept (Data.Comparison.imported e) (Out.Comparison.imported o)
  /\ optionRel operationKept (Data.Comparison.actual e) (Out.Comparison.actual o).

(** An operation found on the chain and in the imported file. *)
Definition exampleOperation : Data.Operation.t :=
  {| Data.Operation.date := "2020-11-02";
     Data.Operation.block := ofZ 655000;
     Data.Operation.txid := "4a5e1e4baab89f3a32518a88c31bc87f";
     Data.Operation.address := exampleAddress;
     Data.Operation.cashAddress := Some "ignored";
     Data.Operation.amount := mkNum 5 (-1);
     Data.Operation.operationType := "Received" |}.

Definition exampleMatch : Out.Comparison.t :=
  {| Out.Comparison.imported :=
       Some {| Out.Imported.date := "2020-11-02";
               Out.Imported.txid := "4a5e1e4baab89f3a32518a88c31bc87f";
               Out.Imported.address := None;
               Out.Imported.amount := "50000000";
               Out.Imported.operationType := "Received" |};
     Out.Comparison.actual := None;
     Out.Comparison.status := "Match" |}.

(** * Facts about numerals *)

Section Numerals.

Local Open Scope list_scope.
Local Open Scope N_scope.

Lemma canonical_nil : canonical [].
Proof. split; [constructor | discriminate]. Qed.

Lemma canonical_tail d r : canonical (d :: r) -> canonical r.
Proof.
  intros [Hall Hlast]. destruct r as [|d' r'].
  - apply canonical_nil.
  - split; [now inversion Hall | exact Hlast].
Qed.

Lemma canonical_head d r : canonical (d :: r) -> d < 10.
Proof. intros [Hall _]. now inversion Hall. Qed.

Lemma canonical_pos ds : canonical ds -> ds <> [] -> 0 < valLE ds.
Proof.
  induction ds as [|d r IH]; intros Hc Hne; [congruence|].
  cbn [valLE]. destruct r as [|d' r'].
  - destruct Hc as [_ Hlast]. cbn in *. lia.
  - assert (0 < valLE (d' :: r')).
    { apply IH; [eapply canonical_tail; eauto | discriminate]. }
    lia.
Qed.

Lemma canonical_inj ds1 : forall ds2,
  canonical ds1 -> canonical ds2 -> valLE ds1 = valLE ds2 -> ds1 = ds2.
Proof.
  induction ds1 as [|d1 r1 IH]; intros [|d2 r2] H1 H2 Hv.
  - reflexivity.
  - pose proof (canonical_pos _ H2 ltac:(discriminate)). cbn [valLE] in *. lia.
  - pose proof (canonical_pos _ H1 ltac:(discriminate)). cbn [valLE] in *. lia.
  - pose proof (canonical_head _ _ H1). pose proof (canonical_head _ _ H2).
    cbn [valLE] in Hv.
    assert (d1 = d2 /\ valLE r1 = valLE r2) as [-> Hr] by lia.
    f_equal. apply IH; eauto using canonical_tail.
Qed.

Lemma digitsLE_spec f : forall n,
  n < 2 ^ N.of_nat f ->
  valLE (digitsLE f n) = n /\ canonical (digitsLE f n).
Proof.
  induction f as [|f IH]; intros n Hn.
  - cbn in Hn. assert (n = 0) by lia. subst. cbn. split; [reflexivity | apply canonical_nil].
  - cbn [digitsLE]. destruct (N.eqb_spec n 0) as [->|Hnz].
    + split; [reflexivity | apply canonical_nil].
    + assert (Hdiv : n / 10 < 2 ^ N.of_nat f).
      { rewrite Nat2N.inj_succ, N.pow_succ_r' in Hn.
        apply N.Div0.div_lt_upper_bound. lia. }
      destruct (IH _ Hdiv) as [Hv [Hall Hlast]].
      pose proof (N.mod_upper_bound n 10 ltac:(lia)).
      pose proof (N.Div0.div_mod n 10).
      split.
      * cbn [valLE]. rewrite Hv. lia.
      * split; [constructor; assumption|].
        destruct (digitsLE f (n / 10)) as [|d' r'] eqn:E.
        -- cbn in Hv. cbn. lia.
        -- exact Hlast.
Qed.

(** The digits of [n], least significant first. *)
Lemma digits_rev n :
  exists ds, digits n = List.rev ds /\ valLE ds = n /\ canonical ds.
Proof.
  exists (digitsLE (N.to_nat (N.size n)) n). split; [reflexivity|].
  apply digitsLE_spec. rewrite N2Nat.id. apply N.size_gt.
Qed.

Lemma digits_unique n ds :
  valLE ds = n -> canonical ds -> digits n = List.rev ds.
Proof.
  intros Hv Hc. destruct (digits_rev n) as (ds' & -> & Hv' & Hc').
  f_equal. apply canonical_inj; congruence.
Qed.

Lemma valLE_app l1 l2 :
  valLE (l1 ++ l2) = valLE l1 + 10 ^ N.of_nat (List.length l1) * valLE l2.
Proof.
  induction l1 as [|d r IH].
  - cbn [List.app valLE List.length N.of_nat]. rewrite N.pow_0_r. lia.
  - cbn [List.app valLE List.length]. rewrite IH, Nat2N.inj_succ, N.pow_succ_r'. lia.
Qed.

Lemma valLE_zeros j : valLE (repeat 0 j) = 0.
Proof. induction j; cbn [repeat valLE]; lia. Qed.

Lemma last_app_nonnil (l1 l2 : list N) d :
  l2 <> [] -> last (l1 ++ l2) d = last l2 d.
Proof.
  intros Hne. induction l1 as [|a r IH]; [reflexivity|].
  cbn [List.app]. destruct (r ++ l2) eqn:E.
  - destruct r; cbn in E; congruence.
  - rewrite <- E. cbn [last]. rewrite E in *. exact IH.
Qed.

(** Multiplying by a power of ten appends zeros. *)
Lemma digits_shift m j :
  m <> 0 -> digits (m * 10 ^ N.of_nat j) = (digits m ++ repeat 0 j)%list.
Proof.
  intros Hm. destruct (digits_rev m) as (ds & Hd & Hv & Hc).
  rewrite Hd, <- (rev_repeat j 0), <- rev_app_distr.
  apply digits_unique.
  - rewrite valLE_app, valLE_zeros, repeat_length, Hv. lia.
  - assert (ds <> []) by (intros ->; cbn in Hv; congruence).
    destruct Hc as [Hall Hlast]. split.
    + apply Forall_app. split; [|assumption].
      apply Forall_forall. intros x Hx. apply repeat_spec in Hx. subst. lia.
    + now rewrite last_app_nonnil.
Qed.

Lemma valDigits_snoc l d : valDigits (l ++ [d]) = 10 * valDigits l + d.
  Proof. unfold valDigits. now rewrite fold_left_app. Qed.

Lemma valDigits_rev ds : valDigits (List.rev ds) = valLE ds.
Proof.
  induction ds as [|d r IH]; [reflexivity|].
  cbn [List.rev valLE]. rewrite valDigits_snoc, IH. lia.
Qed.

Lemma valDigits_digits n : valDigits (digits n) = n.
Proof.
  destruct (digits_rev n) as (ds & -> & Hv & _). now rewrite valDigits_rev.
Qed.

Lemma digits_lt10 n : Forall (fun d => d < 10) (digits n).
Proof.
  destruct (digits_rev n) as (ds & -> & _ & [Hall _]). now apply Forall_rev.
Qed.

Lemma digits_nonnil n : n <> 0 -> digits n <> [].
Proof.
  intros Hn E. pose proof (valDigits_digits n) as Hv. rewrite E in Hv.
  cbn in Hv. congruence.
Qed.

Lemma valDigits_zeros l j :
  valDigits (l ++ repeat 0 j) = valDigits l * 10 ^ N.of_nat j.
Proof.
  induction j as [|j IH].
  - cbn [repeat N.of_nat]. rewrite app_nil_r, N.pow_0_r. lia.
  - replace (repeat 0 (S j)) with (repeat 0 j ++ [0]).
    + rewrite app_assoc, valDigits_snoc, IH, Nat2N.inj_succ, N.pow_succ_r'. lia.
    + change [0] with (repeat 0 1). rewrite <- repeat_app. f_equal. lia.
Qed.

Lemma canonical_lower ds :
  canonical ds -> ds <> [] -> 10 ^ N.of_nat (List.length ds - 1) <= valLE ds.
Proof.
  induction ds as [|d r IH]; intros Hc Hne; [congruence|].
  destruct r as [|d' r'].
  - destruct Hc as [_ Hlast]. cbn in *. lia.
  - pose proof (IH (canonical_tail _ _ Hc) ltac:(discriminate)) as Hr.
    cbn [List.length valLE] in *.
    replace (S (S (List.length r')) - 1)%nat with (S (S (List.length r') - 1)) by lia.
    rewrite Nat2N.inj_succ, N.pow_succ_r'. lia.
Qed.

(** A number below 10^k has at most [k] digits. *)
Lemma digits_length_le n k :
  n < 10 ^ N.of_nat k -> (List.length (digits n) <= k)%nat.
Proof.
  intros Hn. destruct (digits_rev n) as (ds & -> & Hv & Hc).
  rewrite length_rev. destruct ds as [|d r]; [cbn; lia|].
  pose proof (canonical_lower _ Hc ltac:(discriminate)) as Hlow.
  rewrite Hv in Hlow.
  destruct (Nat.le_gt_cases (List.length (d :: r)) k) as [|Hgt]; [assumption|].
  exfalso.
  assert (10 ^ N.of_nat k <= 10 ^ N.of_nat (List.length (d :: r) - 1)).
  { apply N.pow_le_mono_r; lia. }
  lia.
Qed.

(** A number from 10^k on has more than [k] digits. *)
Lemma digits_length_gt n k :
  10 ^ N.of_nat k <= n -> (k < List.length (digits n))%nat.
Proof.
  intros Hn. destruct (digits_rev n) as (ds & -> & Hv & [Hall _]).
  rewrite length_rev. subst n.
  assert (Hup : valLE ds < 10 ^ N.of_nat (List.length ds)).
  { clear Hn. induction ds as [|d r IH].
    - cbn. lia.
    - inversion Hall; subst. cbn [valLE List.length].
      rewrite Nat2N.inj_succ, N.pow_succ_r'. specialize (IH H2). lia. }
  destruct (Nat.le_gt_cases (List.length ds) k) as [Hle|]; [|assumption].
  exfalso.
  assert (10 ^ N.of_nat (List.length ds) <= 10 ^ N.of_nat k).
  { apply N.pow_le_mono_r; lia. }
  lia.
Qed.

Lemma stripLeadingZeros_zeros j l :
  stripLeadingZeros (repeat 0 j ++ l) = stripLeadingZeros l.
Proof. induction j; [reflexivity | exact IHj]. Qed.

Lemma stripTrailingZeros_zeros ds j :
  stripTrailingZeros (ds ++ repeat 0 j) = stripTrailingZeros ds.
Proof.
  unfold stripTrailingZeros.
  now rewrite rev_app_distr, rev_repeat, stripLeadingZeros_zeros.
Qed.

Lemma stripLeadingZeros_split l :
  exists t, l = repeat 0 t ++ stripLeadingZeros l.
Proof.
  induction l as [|d r [t IH]].
  - now exists 0%nat.
  - destruct d as [|p].
    + exists (S t). cbn [stripLeadingZeros repeat List.app]. now rewrite <- IH.
    + now exists 0%nat.
Qed.

(** The digits are the significant ones followed by zeros. *)
Lemma stripTrailingZeros_split ds :
  ds = stripTrailingZeros ds
       ++ repeat 0 (List.length ds - List.length (stripTrailingZeros ds)).
Proof.
  unfold stripTrailingZeros.
  destruct (stripLeadingZeros_split (List.rev ds)) as [t Ht].
  assert (E : ds = List.rev (stripLeadingZeros (List.rev ds)) ++ repeat 0 t).
  { rewrite <- (rev_involutive ds) at 1. rewrite Ht at 1.
    now rewrite rev_app_distr, rev_repeat. }
  assert (Hl : List.length ds
               = (List.length (List.rev (stripLeadingZeros (List.rev ds))) + t)%nat).
  { rewrite E at 1. now rewrite length_app, repeat_length. }
  replace (List.length ds - List.length (List.rev (stripLeadingZeros (List.rev ds))))%nat
    with t by lia.
  exact E.
Qed.

Lemma stripTrailingZeros_lt10 ds :
  Forall (fun d => d < 10) ds -> Forall (fun d => d < 10) (stripTrailingZeros ds).
Proof.
  intros H. rewrite (stripTrailingZeros_split ds) in H.
  now apply Forall_app in H.
Qed.

Lemma stripTrailingZeros_length ds :
  (List.length (stripTrailingZeros ds) <= List.length ds)%nat.
Proof.
  pose proof (f_equal (@List.length N) (stripTrailingZeros_split ds)) as H.
  rewrite length_app in H. lia.
Qed.

Lemma stripTrailingZeros_val ds :
  valDigits ds
  = valDigits (stripTrailingZeros ds)
    * 10 ^ N.of_nat (List.length ds - List.length (stripTrailingZeros ds)).
Proof.
  rewrite (stripTrailingZeros_split ds) at 1. apply valDigits_zeros.
Qed.

End Numerals.

(** * Facts about strings *)

Section Strings.

Lemma append_nil_r s : s ++ "" = s.
Proof. induction s as [|c s IH]; cbn; [reflexivity | now rewrite IH]. Qed.

Lemma append_assoc s1 s2 s3 : (s1 ++ s2) ++ s3 = s1 ++ (s2 ++ s3).
Proof. induction s1 as [|c s IH]; cbn; [reflexivity | now rewrite IH]. Qed.

Lemma length_append s1 s2 :
  String.length (s1 ++ s2) = (String.length s1 + String.length s2)%nat.
Proof. induction s1 as [|c s IH]; cbn; [reflexivity | now rewrite IH]. Qed.

Lemma showDigits_app l1 l2 :
  showDigits (l1 ++ l2)%list = showDigits l1 ++ showDigits l2.
Proof. induction l1 as [|d r IH]; cbn; [reflexivity | now rewrite IH]. Qed.

Lemma showDigits_zeros j : showDigits (repeat 0%N j) = repeatChar "0" j.
Proof. induction j as [|j IH]; cbn; [reflexivity | now rewrite IH]. Qed.

Lemma digit_cases d :
  (d < 10)%N ->
  d = 0%N \/ d = 1%N \/ d = 2%N \/ d = 3%N \/ d = 4%N \/
  d = 5%N \/ d = 6%N \/ d = 7%N \/ d = 8%N \/ d = 9%N.
Proof. lia. Qed.

Ltac each_digit d H :=
  destruct (digit_cases d H) as [->|[->|[->|[->|[->|[->|[->|[->|[->| ->]]]]]]]]].

Lemma isDigit_digitChar d : (d < 10)%N -> isDigit (digitChar d) = true.
Proof. intros H. each_digit d H; reflexivity. Qed.

Lemma digitVal_digitChar d : (d < 10)%N -> digitVal (digitChar d) = d.
Proof. intros H. each_digit d H; reflexivity. Qed.

Lemma digitChar_not_sign d :
  (d < 10)%N ->
  Ascii.eqb (digitChar d) "-" = false /\ Ascii.eqb (digitChar d) "+" = false.
Proof. intros H. each_digit d H; split; reflexivity. Qed.

Lemma spanDigits_show ds rest :
  Forall (fun d => (d < 10)%N) ds -> startsNonDigit rest ->
  spanDigits (showDigits ds ++ rest) = (ds, rest).
Proof.
  intros Hall Hrest. induction Hall as [|d r Hd Hr IH].
  - cbn. destruct rest as [|c s]; [reflexivity|]. cbn in *. now rewrite Hrest.
  - cbn [showDigits String.append spanDigits].
    now rewrite (isDigit_digitChar d Hd), IH, (digitVal_digitChar d Hd).
Qed.

Lemma allDigits_show ds :
  Forall (fun d => (d < 10)%N) ds -> allDigits (showDigits ds) = true.
Proof.
  induction 1 as [|d r Hd Hr IH]; [reflexivity|].
  cbn [showDigits allDigits]. now rewrite (isDigit_digitChar d Hd), IH.
Qed.

End Strings.

(** * Facts about numbers *)

Section Numbers.

Lemma abs_N_shift c e :
  0 <= e -> Z.abs_N (c * 10 ^ e) = (Z.abs_N c * 10 ^ N.of_nat (Z.to_nat e))%N.
Proof.
  intros He. apply N2Z.inj.
  rewrite N2Z.inj_mul, N2Z.inj_pow, !N2Z.inj_abs_N, Z.abs_mul, Z.abs_pow.
  rewrite nat_N_Z, Z2Nat.id by assumption. reflexivity.
Qed.

Lemma pow10_pos e : 0 < 10 ^ e \/ (e < 0 /\ 10 ^ e = 0).
Proof.
  destruct (Z.le_gt_cases 0 e) as [H|H].
  - left. now apply Z.pow_pos_nonneg.
  - right. split; [assumption | now apply Z.pow_neg_r].
Qed.

(** Every way of writing an integer is rendered as the integer is. *)
Lemma toString_denotes x v : denotes x v -> toString x = toString (ofZ v).
Proof.
  destruct x as [c e]. unfold denotes. cbn [coef expo].
  intros [[He ->] | [He ->]].
  - assert (0 < 10 ^ e) by (now apply Z.pow_pos_nonneg).
    unfold toString, isZero. cbn [coef expo ofZ].
    destruct (Z.eqb_spec c 0) as [->|Hc]; [reflexivity|].
    destruct (Z.eqb_spec (c * 10 ^ e) 0) as [E|_]; [nia|].
    rewrite abs_N_shift by assumption.
    rewrite digits_shift by lia.
    rewrite stripTrailingZeros_zeros, length_app, repeat_length.
    replace (Z.of_nat (List.length (digits (Z.abs_N c)) + Z.to_nat e) + 0)
      with (Z.of_nat (List.length (digits (Z.abs_N c))) + e) by lia.
    replace (c * 10 ^ e <? 0) with (c <? 0); [reflexivity|].
    destruct (Z.ltb_spec c 0), (Z.ltb_spec (c * 10 ^ e) 0); try reflexivity; nia.
  - assert (0 < 10 ^ (- e)) by (apply Z.pow_pos_nonneg; lia).
    unfold toString, isZero. cbn [coef expo ofZ].
    destruct (Z.eqb_spec v 0) as [->|Hv]; [reflexivity|].
    destruct (Z.eqb_spec (v * 10 ^ (- e)) 0) as [E|_]; [nia|].
    rewrite abs_N_shift by lia.
    rewrite digits_shift by lia.
    rewrite stripTrailingZeros_zeros, length_app, repeat_length.
    replace (Z.of_nat (List.length (digits (Z.abs_N v)) + Z.to_nat (- e)) + e)
      with (Z.of_nat (List.length (digits (Z.abs_N v))) + 0) by lia.
    replace (v * 10 ^ (- e) <? 0) with (v <? 0); [reflexivity|].
    destruct (Z.ltb_spec v 0), (Z.ltb_spec (v * 10 ^ (- e)) 0); try reflexivity; nia.
Qed.

(** Below 10^21 an integer is rendered by its decimal numeral. *)
Lemma toString_ofZ_small v : Z.abs v < 10 ^ 21 -> toString (ofZ v) = showZ v.
Proof.
  intros Hv. unfold toString, showZ, isZero. cbn [coef expo ofZ].
  destruct (Z.eqb_spec v 0) as [->|Hnz]; [reflexivity|].
  assert (Hn : Z.abs_N v <> 0%N) by lia.
  assert (Hshow : showN (Z.abs_N v) = showDigits (digits (Z.abs_N v))).
  { unfold showN. destruct (Z.abs_N v); [congruence | reflexivity]. }
  rewrite Hshow.
  set (all := digits (Z.abs_N v)).
  assert (Hlen : (List.length all <= 21)%nat).
  { apply digits_length_le. change (10 ^ N.of_nat 21)%N with (Z.to_N (10 ^ 21)). lia. }
  pose proof (stripTrailingZeros_length all) as Hk.
  assert (Hbody : showPositive (stripTrailingZeros all) (Z.of_nat (List.length all) + 0)
                  = showDigits all).
  { unfold showPositive.
    replace (Z.of_nat (List.length (stripTrailingZeros all))
             <=? Z.of_nat (List.length all) + 0) with true
      by (symmetry; apply Z.leb_le; lia).
    replace (Z.of_nat (List.length all) + 0 <=? 21) with true
      by (symmetry; apply Z.leb_le; lia).
    cbn [andb]. rewrite <- showDigits_zeros, <- showDigits_app.
    f_equal.
    replace (Z.to_nat (Z.of_nat (List.length all) + 0
                       - Z.of_nat (List.length (stripTrailingZeros all))))
      with (List.length all - List.length (stripTrailingZeros all))%nat by lia.
    symmetry. apply stripTrailingZeros_split. }
  now rewrite Hbody.
Qed.

Lemma showN_digits n :
    exists ds, ds <> [] /\ Forall (fun d => (d < 10)%N) ds
               /\ showN n = showDigits ds /\ valDigits ds = n.
  Proof.
    destruct n as [|p].
    - exists [0%N]. repeat split; [discriminate | repeat constructor].
    - exists (digits (N.pos p)). repeat split.
      + apply digits_nonnil. discriminate.
      + apply digits_lt10.
      + apply valDigits_digits.
  Qed.

Lemma parseExponent_plus E :
  0 <= E -> parseExponent ("e" ++ "+" ++ showN (Z.abs_N E)) = Some E.
Proof.
  intros HE. destruct (showN_digits (Z.abs_N E)) as (ds & Hne & Hall & -> & Hv).
  cbn [String.append parseExponent]. cbn [Ascii.eqb Bool.eqb orb andb].
  rewrite <- (append_nil_r (showDigits ds)).
  rewrite spanDigits_show by (assumption || exact I).
  destruct ds as [|x xs]; [congruence|]. rewrite Hv. f_equal. lia.
Qed.

Lemma parseUnsigned_digits ds :
  ds <> [] -> Forall (fun d => (d < 10)%N) ds ->
  parseUnsigned (showDigits ds) = Some (mkNum (Z.of_N (valDigits ds)) 0).
Proof.
  intros Hne Hall. unfold parseUnsigned.
  rewrite <- (append_nil_r (showDigits ds)).
  rewrite spanDigits_show by (assumption || exact I).
  rewrite app_nil_r. destruct ds as [|x xs]; [congruence|]. reflexivity.
Qed.

Lemma parseUnsigned_scientific d r E :
  (d < 10)%N -> Forall (fun d => (d < 10)%N) r -> 0 <= E ->
  parseUnsigned
    (match d :: r with
     | [d] => showDigits [d]
     | _ => showDigits (firstn 1 (d :: r)) ++ "." ++ showDigits (skipn 1 (d :: r))
     end ++ "e" ++ "+" ++ showN (Z.abs_N E))
  = Some (mkNum (Z.of_N (valDigits (d :: r))) (E - Z.of_nat (List.length r))).
Proof.
  intros Hd Hr HE.
  pose proof (parseExponent_plus E HE) as Hexp.
  set (tail := "e" ++ "+" ++ showN (Z.abs_N E)) in *.
  assert (Htail : startsNonDigit tail) by reflexivity.
  assert (Hdot : forall s, startsNonDigit ("." ++ s)) by reflexivity.
  unfold parseUnsigned. destruct r as [|d' r'].
  - rewrite spanDigits_show by (repeat constructor; assumption).
    cbn [tail String.append Ascii.eqb Bool.eqb andb].
    change (String "e" (String "+" (showN (Z.abs_N E)))) with tail.
    rewrite Hexp. reflexivity.
  - cbn [firstn skipn]. rewrite append_assoc.
    rewrite spanDigits_show by (repeat constructor; assumption).
    rewrite append_assoc. cbn [String.append Ascii.eqb Bool.eqb andb].
    rewrite spanDigits_show by assumption.
    rewrite Hexp. reflexivity.
Qed.

Lemma startsWithDigit ds rest :
    ds <> [] -> Forall (fun d => (d < 10)%N) ds ->
    exists c s, showDigits ds ++ rest = String c s
                /\ Ascii.eqb c "-" = false /\ Ascii.eqb c "+" = false.
  Proof.
    intros Hne Hall. destruct ds as [|d r]; [congruence|].
    inversion Hall; subst.
    exists (digitChar d), (showDigits r ++ rest). split; [reflexivity|].
    now apply digitChar_not_sign.
  Qed.

(** What [Number] reads in the rendering of a positive integer. *)
Lemma parseUnsigned_showPositive (n : N) :
  n <> 0%N ->
  let all := digits n in
  let body := showPositive (stripTrailingZeros all) (Z.of_nat (List.length all) + 0) in
  (exists y, parseUnsigned body = Some y /\ 0 <= expo y
             /\ coef y * 10 ^ expo y = Z.of_N n)
  /\ (exists c s, body = String c s
                  /\ Ascii.eqb c "-" = false /\ Ascii.eqb c "+" = false).
Proof.
  intros Hn all body.
  pose proof (digits_lt10 n) as Hall. fold all in Hall.
  pose proof (digits_nonnil n Hn) as Hne. fold all in Hne.
  pose proof (valDigits_digits n) as Hval. fold all in Hval.
  pose proof (stripTrailingZeros_length all) as Hk.
  pose proof (stripTrailingZeros_lt10 all Hall) as Hall'.
  pose proof (stripTrailingZeros_val all) as Hval'.
  pose proof (stripTrailingZeros_split all) as Hsplit.
  set (sig := stripTrailingZeros all) in *.
  assert (Hne' : sig <> []).
  { intros E. rewrite E in Hval'. cbn in Hval'. lia. }
  destruct (Z.leb_spec (Z.of_nat (List.length all) + 0) 21) as [Hle|Hgt].
  - (* positional *)
    assert (Hbody : body = showDigits all).
    { unfold body, showPositive.
      replace (Z.of_nat (List.length sig) <=? Z.of_nat (List.length all) + 0)
        with true by (symmetry; apply Z.leb_le; lia).
      replace (Z.of_nat (List.length all) + 0 <=? 21) with true
        by (symmetry; apply Z.leb_le; lia).
      cbn [andb]. rewrite <- showDigits_zeros, <- showDigits_app. f_equal.
      replace (Z.to_nat (Z.of_nat (List.length all) + 0 - Z.of_nat (List.length sig)))
        with (List.length all - List.length sig)%nat by lia.
      symmetry. exact Hsplit. }
    rewrite Hbody. split.
    + exists (mkNum (Z.of_N (valDigits all)) 0). cbn [coef expo].
      split; [now apply parseUnsigned_digits|]. split; [lia|]. rewrite Hval. lia.
    + rewrite <- (append_nil_r (showDigits all)). now apply startsWithDigit.
  - (* scientific *)
    destruct sig as [|d r] eqn:Esig; [congruence|].
    pose proof (Forall_inv Hall') as Hd. pose proof (Forall_inv_tail Hall') as Hr.
    cbv beta in Hd.
    assert (HE : 0 <= Z.of_nat (List.length all) + 0 - 1) by lia.
    assert (Hbody : body
                    = match d :: r with
                      | [d] => showDigits [d]
                      | _ => showDigits (firstn 1 (d :: r)) ++ "."
                             ++ showDigits (skipn 1 (d :: r))
                      end ++ "e" ++ "+"
                      ++ showN (Z.abs_N (Z.of_nat (List.length all) + 0 - 1))).
    { unfold body, showPositive.
      replace (Z.of_nat (List.length all) + 0 <=? 21) with false
        by (symmetry; apply Z.leb_gt; lia).
      replace (Z.of_nat (List.length all) + 0 <=? 0) with false
        by (symmetry; apply Z.leb_gt; lia).
      rewrite !andb_false_r.
      replace (Z.of_nat (List.length all) + 0 - 1 <? 0) with false
        by (symmetry; apply Z.ltb_ge; lia).
      reflexivity. }
    rewrite Hbody. split.
    + eexists. split; [now apply parseUnsigned_scientific|].
      cbn [coef expo List.length] in *. split; [lia|].
      rewrite Hval in Hval'. rewrite Hval'.
      rewrite N2Z.inj_mul, N2Z.inj_pow, nat_N_Z. f_equal. f_equal. lia.
    + destruct r as [|d' r'].
      * exists (digitChar d). eexists. split; [reflexivity|].
        now apply digitChar_not_sign.
      * exists (digitChar d). eexists. split; [reflexivity|].
        now apply digitChar_not_sign.
Qed.

(** [Number] reads back the integer [String] rendered. *)
Lemma StringToNumber_toString_ofZ v :
  exists y, StringToNumber (toString (ofZ v)) = Some y
            /\ 0 <= expo y /\ coef y * 10 ^ expo y = v.
Proof.
  unfold toString, isZero. cbn [coef expo ofZ].
  destruct (Z.eqb_spec v 0) as [->|Hnz].
  - exists (mkNum 0 0). repeat split; cbn; lia.
  - assert (Hn : Z.abs_N v <> 0%N) by lia.
    destruct (parseUnsigned_showPositive _ Hn)
      as [(y & Hy & He & Hv) (c & s & Hbody & Hminus & Hplus)].
    cbv zeta in Hy, Hbody.
    destruct (Z.ltb_spec v 0) as [Hneg|Hpos].
    + exists (mkNum (- coef y) (expo y)).
      cbn [String.append StringToNumber Ascii.eqb Bool.eqb andb].
      rewrite Hy. cbn [coef expo]. repeat split; [assumption|]. lia.
    + exists y. rewrite Hbody in *. cbn [StringToNumber].
      rewrite Hminus, Hplus, Hy. repeat split; [assumption|]. lia.
Qed.

End Numbers.

(** * Facts about occurrences *)

Section Occurrences.

Lemma prefix_app p s : prefix p (p ++ s) = true.
Proof.
  induction p as [|c p IH]; cbn.
  - now destruct s.
  - destruct (ascii_dec c c); [exact IH | congruence].
Qed.

Lemma prefix_split p : forall s, prefix p s = true -> s = p ++ drop (String.length p) s.
Proof.
  induction p as [|c p IH]; intros s H.
  - reflexivity.
  - destruct s as [|d s]; cbn in H; [discriminate|].
    destruct (ascii_dec c d) as [->|]; [|discriminate].
    cbn. f_equal. now apply IH.
Qed.

(** Two ways of cutting one string in two. *)
Lemma append_eq_append s1 : forall s2 t1 t2,
  s1 ++ s2 = t1 ++ t2 ->
  (exists u, s1 = t1 ++ u /\ t2 = u ++ s2)
  \/ (exists u, t1 = s1 ++ u /\ s2 = u ++ t2).
Proof.
  induction s1 as [|c s1 IH]; intros s2 t1 t2 H.
  - right. exists t1. split; [reflexivity | exact H].
  - destruct t1 as [|d t1].
    + left. exists (String c s1). split; [reflexivity | symmetry; exact H].
    + cbn in H. injection H as -> H.
      destruct (IH _ _ _ H) as [(u & -> & ->) | (u & -> & ->)].
      * left. now exists u.
      * right. now exists u.
Qed.

Lemma append_comparable x y a b : x ++ a = y ++ b -> comparable x y = true.
Proof.
  intros H. unfold comparable.
  destruct (append_eq_append _ _ _ _ H) as [(u & -> & _) | (u & -> & _)].
  - rewrite (prefix_app y u). apply orb_true_r.
  - now rewrite (prefix_app x u).
Qed.

Lemma drop_append s t : drop (String.length s) (s ++ t) = t.
Proof. induction s as [|c s IH]; cbn; [now destruct t | exact IH]. Qed.

Lemma cut_split pat : forall s before after,
  cut pat s = Some (before, after) -> s = before ++ pat ++ after.
Proof.
  induction s as [|c s IH]; intros before after H.
  - cbn [cut] in H. destruct (prefix pat "") eqn:E; [|discriminate].
    injection H as <- <-. now apply prefix_split.
  - cbn [cut] in H. destruct (prefix pat (String c s)) eqn:E.
    + injection H as <- <-. now apply prefix_split.
    + destruct (cut pat s) as [[b a]|] eqn:Ecut; [|discriminate].
      injection H as <- <-. cbn. f_equal. now apply IH.
Qed.

Lemma contains_cut pat s :
  contains pat s -> exists before after, cut pat s = Some (before, after).
Proof.
  intros (b & a & ->). induction b as [|c b IH].
  - cbn [String.append]. destruct (pat ++ a) as [|d r] eqn:E.
    + cbn. destruct pat; [|discriminate]. cbn. eauto.
    + cbn [cut]. rewrite <- E, prefix_app. eauto.
  - cbn [String.append cut]. destruct (prefix pat (String c (b ++ pat ++ a))); [eauto|].
    destruct IH as (b' & a' & ->). eauto.
Qed.

Lemma existsb_seq (f : nat -> bool) k n :
  (k < n)%nat -> f k = true -> existsb f (seq 0 n) = true.
Proof.
  intros Hk Hf. apply existsb_exists. exists k. split; [|exact Hf].
  apply in_seq. lia.
Qed.

(** Where an occurrence of [w] is, with respect to one of [pat]. *)
Lemma occurrences pat w b a b2 a2 :
  b ++ pat ++ a = b2 ++ w ++ a2 ->
  (exists x, b = b2 ++ w ++ x)
  \/ (exists y, a = y ++ w ++ a2)
  \/ clash pat w = true.
Proof.
  intros H.
  destruct (append_eq_append _ _ _ _ H) as [(u & -> & Hu) | (u & -> & Hu)].
  - (* [pat] begins where [w] does, or further *)
    destruct (append_eq_append _ _ _ _ Hu) as [(x & Hw & Hx) | (v & -> & _)].
    + destruct x as [|d x].
      * left. exists "". rewrite append_nil_r in Hw. subst. now rewrite append_nil_r.
      * right. right. unfold clash. apply orb_true_iff. left.
        apply (existsb_seq _ (String.length u)).
        -- rewrite Hw, length_append. cbn. lia.
        -- rewrite Hw, drop_append. symmetry in Hx.
           exact (append_comparable _ _ _ _ Hx).
    + left. now exists v.
  - (* [w] begins further than [pat] does *)
    destruct (append_eq_append _ _ _ _ Hu) as [(y & Hp & Hy) | (v & -> & ->)].
    + destruct y as [|d y].
      * right. left. exists "". cbn in Hy. now subst.
      * right. right. unfold clash. apply orb_true_iff. right.
        apply (existsb_seq _ (String.length u)).
        -- rewrite Hp, length_append. cbn. lia.
        -- rewrite Hp, drop_append. symmetry in Hy.
           exact (append_comparable _ _ _ _ Hy).
    + right. left. now exists v.
Qed.

Lemma contains_append_l w s t : contains w s -> contains w (s ++ t).
Proof.
  intros (b & a & ->). exists b, (a ++ t). now rewrite !append_assoc.
Qed.

Lemma contains_append_r w s t : contains w t -> contains w (s ++ t).
Proof.
  intros (b & a & ->). exists (s ++ b), a. now rewrite !append_assoc.
Qed.

(** Replacing [pat] keeps the occurrences of a string it cannot clash
    with. *)
Lemma replace_keeps pat rep w s :
  clash pat w = false -> contains w s -> contains w (replace pat rep s).
Proof.
  intros Hclash Hw. unfold replace.
  destruct (cut pat s) as [[b a]|] eqn:E; [|exact Hw].
  apply cut_split in E. subst s. destruct Hw as (b2 & a2 & H).
  destruct (occurrences _ _ _ _ _ _ H) as [(x & ->) | [(y & ->) | Hc]].
  - apply contains_append_l. exists b2, x. reflexivity.
  - do 2 apply contains_append_r. exists y, a2. reflexivity.
  - congruence.
Qed.

Lemma rev_onto_append s : forall acc, rev_onto s acc = rev s ++ acc.
Proof.
  unfold rev. induction s as [|c s IH]; intros acc; [reflexivity|].
  cbn [rev_onto]. rewrite IH, (IH (String c "")), append_assoc. reflexivity.
Qed.

Lemma rev_cons c s x : rev (String c s) ++ x = rev s ++ String c x.
Proof.
  unfold rev. cbn [rev_onto]. rewrite (rev_onto_append s (String c "")).
  now rewrite append_assoc.
Qed.

Lemma splitGo_skip pat k : forall s cur,
  splitGo pat s k cur = splitGo pat (drop k s) O cur.
Proof.
  induction k as [|k IH]; intros s cur.
  - now destruct s.
  - destruct s as [|c s]; [reflexivity|]. cbn [splitGo drop]. apply IH.
Qed.

(** [split] cuts at the first occurrence and goes on with what follows. *)
Lemma splitGo_cut pat : pat <> "" -> forall s cur,
  splitGo pat s O cur
  = match cut pat s with
    | Some (b, a) => (rev cur ++ b) :: splitGo pat a O ""
    | None => [rev cur ++ s]
    end.
Proof.
  intros Hpat. induction s as [|c s IH]; intros cur.
  - cbn [splitGo cut]. destruct pat as [|p0 pat']; [congruence|].
    cbn [prefix]. now rewrite append_nil_r.
  - cbn [splitGo cut]. destruct (prefix pat (String c s)) eqn:E.
    + rewrite append_nil_r, splitGo_skip. f_equal. f_equal.
      destruct pat as [|p0 pat']; [congruence|]. cbn [String.length drop].
      f_equal. lia.
    + rewrite IH. destruct (cut pat s) as [[b a]|].
      * now rewrite rev_cons.
      * now rewrite rev_cons.
Qed.

Lemma join_split_cut pat v s :
  pat <> "" ->
  join v (split pat s)
  = match cut pat s with
    | Some (b, a) => b ++ v ++ join v (split pat a)
    | None => s
    end.
Proof.
  intros Hpat. unfold split. destruct pat as [|p0 pat'] eqn:Ep; [congruence|].
  rewrite <- Ep in *. rewrite (splitGo_cut pat Hpat s "").
  destruct (cut pat s) as [[b a]|].
  - cbn [rev rev_onto String.append]. unfold join. cbn [concat].
    rewrite (splitGo_cut pat Hpat a "").
    destruct (cut pat a) as [[b' a']|]; reflexivity.
  - reflexivity.
Qed.

Lemma cut_shorter pat s b a :
  pat <> "" -> cut pat s = Some (b, a) -> (String.length a < String.length s)%nat.
Proof.
  intros Hpat H. apply cut_split in H. subst s.
  rewrite !length_append. destruct pat; [congruence|]. cbn. lia.
Qed.

(** Replacing every [pat] keeps the occurrences of a string it cannot clash
    with. *)
Lemma join_split_keeps pat v w :
  pat <> "" -> clash pat w = false ->
  forall s, contains w s -> contains w (join v (split pat s)).
Proof.
  intros Hpat Hclash s.
  remember (String.length s) as n eqn:Hn. revert s Hn.
  induction n as [n IH] using lt_wf_ind. intros s Hn Hw.
  rewrite (join_split_cut pat v s Hpat).
  destruct (cut pat s) as [[b a]|] eqn:E; [|exact Hw].
  pose proof (cut_shorter _ _ _ _ Hpat E) as Hlen.
  apply cut_split in E. destruct Hw as (b2 & a2 & H). rewrite E in H.
  destruct (occurrences _ _ _ _ _ _ H) as [(x & ->) | [(y & Hy) | Hc]].
  - apply contains_append_l. exists b2, x. reflexivity.
  - do 2 apply contains_append_r.
    apply (IH (String.length a)); [lia | reflexivity |].
    exists y, a2. exact Hy.
  - congruence.
Qed.

End Occurrences.

(** * Facts about [toBaseUnit] *)

Section BaseUnits.

(** The number [toBaseUnit] renders is the amount in base units. *)
Lemma toBaseUnit_toString amount :
  toBaseUnit amount = toString (ofZ (baseUnits amount)).
Proof.
  unfold toBaseUnit. apply toString_denotes.
  destruct amount as [c e].
  unfold sb.toSatoshi, rem1, trunc, isZero, baseUnits, denotes, ofZ.
  cbn [coef expo].
  destruct (Z.leb_spec 0 (e + 8)) as [He|He].
  - cbn [coef expo negb]. left. split; [assumption | reflexivity].
  - cbn [coef expo].
    assert (Hp : 0 < 10 ^ (- (e + 8))) by (apply Z.pow_pos_nonneg; lia).
    destruct (Z.eqb_spec (Z.rem c (10 ^ (- (e + 8)))) 0) as [Hrem|Hrem].
    + cbn [negb coef expo]. right. split; [assumption|].
      pose proof (Z.quot_rem' c (10 ^ (- (e + 8)))) as Hq. lia.
    + cbn [negb coef expo]. left. split; [lia | rewrite Z.pow_0_r; lia].
Qed.

Lemma toBaseUnit_small amount :
  Z.abs (baseUnits amount) < 10 ^ 21 ->
  toBaseUnit amount = showZ (baseUnits amount).
Proof. intros H. rewrite toBaseUnit_toString. now apply toString_ofZ_small. Qed.

(** [Number] reads the amount in base units back from the string. *)
Lemma StringToNumber_toBaseUnit amount :
  exists y, StringToNumber (toBaseUnit amount) = Some y
            /\ 0 <= expo y /\ coef y * 10 ^ expo y = baseUnits amount.
Proof. rewrite toBaseUnit_toString. apply StringToNumber_toString_ofZ. Qed.

Lemma isInteger_nonneg_expo y : 0 <= expo y -> isInteger y = true.
Proof.
  intros H. unfold isInteger, rem1. now rewrite (proj2 (Z.leb_le 0 (expo y)) H).
Qed.

Lemma toInteger_toBaseUnit amount :
  toInteger (toBaseUnit amount) = Some (baseUnits amount).
Proof.
  destruct (StringToNumber_toBaseUnit amount) as (y & Hy & He & Hv).
  unfold toInteger. rewrite Hy, (isInteger_nonneg_expo y He).
  now rewrite (proj2 (Z.leb_le 0 (expo y)) He), Hv.
Qed.

Lemma coef_zero_iff y v :
  0 <= expo y -> coef y * 10 ^ expo y = v -> (coef y =? 0) = (v =? 0).
Proof.
  intros He Hv. assert (0 < 10 ^ expo y) by (now apply Z.pow_pos_nonneg).
  destruct (Z.eqb_spec (coef y) 0), (Z.eqb_spec v 0); try reflexivity; nia.
Qed.

Lemma looseEqZero_toBaseUnit amount :
  looseEqZero (toBaseUnit amount) = (baseUnits amount =? 0).
Proof.
  destruct (StringToNumber_toBaseUnit amount) as (y & Hy & He & Hv).
  unfold looseEqZero, isZero. rewrite Hy. now apply coef_zero_iff.
Qed.

(** [sb.toBitcoin] accepts the string, and its result is zero exactly when
    the amount in base units is. *)
Lemma toBitcoin_toBaseUnit amount :
  exists b, sb.toBitcoin (toBaseUnit amount) = Ok b
            /\ isZero b = (baseUnits amount =? 0)
            /\ numEq b (mkNum (baseUnits amount) (-8)) = true.
Proof.
  destruct (StringToNumber_toBaseUnit amount) as (y & Hy & He & Hv).
  exists (mkNum (coef y) (expo y - 8)).
  unfold sb.toBitcoin. rewrite Hy, (isInteger_nonneg_expo y He).
  split; [reflexivity|]. split.
  - unfold isZero. cbn [coef]. now apply coef_zero_iff.
  - unfold numEq, sub, isZero. cbn [coef expo].
    rewrite Z.min_r by lia.
    replace (expo y - 8 - -8) with (expo y) by lia.
    rewrite Z.sub_diag, Z.pow_0_r. apply Z.eqb_eq. lia.
Qed.

Lemma renderAmount_toBaseUnit amount :
  exists s, renderAmount (toBaseUnit amount) = Ok s.
Proof.
  unfold renderAmount.
  destruct (looseEqZero (toBaseUnit amount)).
  - eexists. reflexivity.
  - destruct (toBitcoin_toBaseUnit amount) as (b & -> & _). eexists. reflexivity.
Qed.

End BaseUnits.

(** * The report is always rendered *)

Section Rendering.

Lemma mapM_ok {A B : Type} (f : A -> result B) (l : list A) :
  (forall a, In a l -> exists b, f a = Ok b) -> exists bs, mapM f l = Ok bs.
Proof.
  induction l as [|a r IH]; intros H.
  - now exists [].
  - destruct (H a (or_introl eq_refl)) as [b Hb].
    destruct IH as [bs Hbs]; [intros x Hx; apply H; now right|].
    exists (b :: bs). cbn [mapM]. rewrite Hb. cbn [bind]. now rewrite Hbs.
Qed.

Lemma cellsOf_ok {A : Set} (f : A -> result (list string)) (l : list A) :
  (forall a, In a l -> exists c, f a = Ok c) -> exists c, cellsOf f l = Ok c.
Proof.
  intros H. destruct (mapM_ok f l H) as [rows Hrows].
  unfold cellsOf. rewrite Hrows. eexists. reflexivity.
Qed.

Lemma summaryCells_ok data o :
  In o (summaryOf data) -> exists c, summaryCells o = Ok c.
Proof.
  unfold summaryOf. intros Hin. apply in_map_iff in Hin as (e & <- & _).
  unfold summaryCells. cbn [Out.Summary.balance Out.Summary.addressType].
  destruct (toBitcoin_toBaseUnit (Data.Summary.balance e)) as (b & -> & _).
  eexists. reflexivity.
Qed.

Lemma addressCells_ok data o :
  In o (addressesOf data) -> exists c, addressCells o = Ok c.
Proof.
  unfold addressesOf. intros Hin. apply in_map_iff in Hin as (e & <- & _).
  unfold addressCells.
  cbn [Out.Address.balance Out.Address.funded Out.Address.spent].
  destruct (renderAmount_toBaseUnit (Data.Address.balance e)) as [s1 ->].
  destruct (renderAmount_toBaseUnit (Data.funded (Data.Address.stats e))) as [s2 ->].
  destruct (renderAmount_toBaseUnit (Data.spent (Data.Address.stats e))) as [s3 ->].
  eexists. reflexivity.
Qed.

Lemma transactionCells_operationOf e :
  exists c, transactionCells (operationOf e) = Ok c.
Proof.
  unfold transactionCells, operationOf. cbn [Out.Operation.amount].
  destruct (renderAmount_toBaseUnit (Data.Operation.amount e)) as [s ->].
  eexists. reflexivity.
Qed.

Lemma comparisonCells_ok l o :
  In o (map (fun e =>
               {| Out.Comparison.imported :=
                    match Data.Comparison.imported e with
                    | Some i => Some (importedOf i)
                    | None => None
                    end;
                  Out.Comparison.actual :=
                    match Data.Comparison.actual e with
                    | Some a => Some (operationOf a)
                    | None => None
                    end;
                  Out.Comparison.status := Data.Comparison.status e |}) l) ->
  exists c, comparisonCells o = Ok c.
Proof.
  intros Hin. apply in_map_iff in Hin as (e & <- & _).
  unfold comparisonCells. cbn [Out.Comparison.imported Out.Comparison.actual].
  destruct (Data.Comparison.imported e) as [i|], (Data.Comparison.actual e) as [a|];
    unfold importedOf, operationOf; cbn [Out.Imported.amount Out.Operation.amount].
  - destruct (renderAmount_toBaseUnit (Data.Imported.amount i)) as [s1 ->].
    cbn [bind].
    destruct (renderAmount_toBaseUnit (Data.Operation.amount a)) as [s2 ->].
    eexists. reflexivity.
  - destruct (renderAmount_toBaseUnit (Data.Imported.amount i)) as [s1 ->].
    eexists. reflexivity.
  - cbn [bind].
    destruct (renderAmount_toBaseUnit (Data.Operation.amount a)) as [s2 ->].
    eexists. reflexivity.
  - eexists. reflexivity.
Qed.

(** No amount of the object [save] builds makes [saveHTML] throw: the
    report goes through every stage. *)
Lemma renderReport_stages meta data :
  let object := objectOf meta data in
  exists summary addresses transactions comparisons,
    renderReport object
    = Ok (replace "{comparisons}" comparisons
            (replace "{transactions}" transactions
               (warningStage object
                  (replace "{addresses}" addresses
                     (replace "{summary}" summary
                        (metaStage object reportTemplate)))))).
Proof.
  cbv zeta. unfold renderReport.
  cbn [objectOf Out.summary Out.addresses Out.transactions Out.comparisons].
  destruct (cellsOf_ok summaryCells (summaryOf data) (summaryCells_ok data))
    as [c1 ->].
  cbn [bind].
  destruct (cellsOf_ok addressCells (addressesOf data) (addressCells_ok data))
    as [c2 ->].
  cbn [bind].
  destruct (cellsOf_ok transactionCells (transactionsOf data)) as [c3 ->].
  { unfold transactionsOf. intros o Hin. apply in_map_iff in Hin as (e & <- & _).
    apply transactionCells_operationOf. }
  cbn [bind].
  assert (Hc : exists c4,
             match comparisonsOf data with
             | Some l => cellsOf comparisonCells l
             | None => Ok []
             end = Ok c4).
  { unfold comparisonsOf. destruct (Data.comparisons data) as [l|].
    - apply cellsOf_ok, comparisonCells_ok.
    - now exists []. }
  destruct Hc as [c4 ->]. cbn [bind].
  destruct c4; do 4 eexists; reflexivity.
Qed.

Lemma renderReport_objectOf meta data :
  exists report, renderReport (objectOf meta data) = Ok report.
Proof.
  destruct (renderReport_stages meta data) as (s & a & t & c & H).
  eexists. exact H.
Qed.

(** The stages other than the warning's keep a warning placeholder, and the
    later ones keep the warning. *)
Lemma metaStage_keeps_placeholder meta data report :
  contains "{warning}" report ->
  contains "{warning}" (metaStage (objectOf meta data) report).
Proof.
  intros H. unfold metaStage.
  cbn [objectOf Out.meta Out.keys map fst fold_left].
  repeat (apply join_split_keeps; [discriminate | vm_compute; reflexivity |]).
  exact H.
Qed.

Lemma warningStage_default object report :
  Out.get "provider" (Out.meta object) = Some (Out.Str "default") ->
  contains "{warning}" report ->
  contains warningText (warningStage object report).
Proof.
  intros Hp Hw. unfold warningStage. rewrite Hp.
  destruct (contains_cut _ _ Hw) as (b & a & Hcut).
  unfold replace. rewrite Hcut. apply contains_append_r.
  exists "", a. reflexivity.
Qed.

Lemma xpub_objectOf meta data :
  Out.show (Out.get "xpub" (Out.meta (objectOf meta data))) = xpub meta.
Proof. reflexivity. Qed.

Lemma toLowerCase_nonempty s : toLocaleLowerCase s = "stdout" -> s <> "".
Proof. intros H ->. discriminate. Qed.

(** What [save] leaves behind, by destination. *)
Lemma save_effects meta data directory :
  let target := if String.eqb directory "" then dirname else directory in
  let object := objectOf meta data in
  exists report,
    renderReport object = Ok report
    /\ save meta data directory
       = if String.eqb (toLocaleLowerCase target) "stdout"
         then ([ ConsoleLog (stringify object) ], Ok tt)
         else ([ WriteFile (target ++ "/" ++ xpub meta ++ ".json") (stringify object);
                 ConsoleLog (nl ++ "JSON export saved: "
                             ++ target ++ "/" ++ xpub meta ++ ".json");
                 WriteFile (target ++ "/" ++ xpub meta ++ ".html") (minify report);
                 ConsoleLog ("HTML report saved: "
                             ++ target ++ "/" ++ xpub meta ++ ".html") ], Ok tt).
Proof.
  intros target object.
  destruct (renderReport_objectOf meta data) as [report Hreport].
  exists report. split; [exact Hreport|].
  unfold save, saveJSON, saveHTML. fold target. fold object.
  unfold object at 2 4. rewrite !xpub_objectOf.
  destruct (String.eqb (toLocaleLowerCase target) "stdout"); cbn [negb].
  - reflexivity.
  - unfold object. rewrite Hreport. reflexivity.
Qed.

End Rendering.

(** * The balance in base units *)

Section Balance.

Lemma pow10_split x y : 0 <= x -> 0 <= y -> 10 ^ (x + y) = 10 ^ x * 10 ^ y.
Proof. intros. now apply Z.pow_add_r. Qed.

(** An amount of whole base units, at a finer scale. *)
Lemma whole_scaled x M :
  wholeBaseUnits x -> M <= expo x -> M <= -8 ->
  coef x * 10 ^ (expo x - M) = baseUnits x * 10 ^ (-8 - M).
Proof.
  destruct x as [c e].
  unfold wholeBaseUnits, isInteger, rem1, isZero, sb.toSatoshi, baseUnits.
  cbn [coef expo]. intros Hw He HM.
  destruct (Z.leb_spec 0 (e + 8)) as [H8|H8].
  - replace (e - M) with ((e + 8) + (-8 - M)) by lia.
    rewrite pow10_split by lia. ring.
  - cbn [coef] in Hw. apply Z.eqb_eq in Hw.
    pose proof (Z.quot_rem' c (10 ^ (- (e + 8)))) as Hq. rewrite Hw in Hq.
    replace (-8 - M) with (- (e + 8) + (e - M)) by lia.
    rewrite pow10_split by lia.
    rewrite Hq at 1. ring.
Qed.

(** An amount that is [D] base units at a finer scale is [D] base units. *)
Lemma scaled_baseUnits x M D :
  M <= expo x -> M <= -8 ->
  coef x * 10 ^ (expo x - M) = D * 10 ^ (-8 - M) ->
  baseUnits x = D.
Proof.
  destruct x as [c e]. unfold baseUnits. cbn [coef expo]. intros He HM H.
  destruct (Z.leb_spec 0 (e + 8)) as [H8|H8].
  - replace (e - M) with ((e + 8) + (-8 - M)) in H by lia.
    rewrite pow10_split in H by lia.
    assert (0 < 10 ^ (-8 - M)) by (apply Z.pow_pos_nonneg; lia).
    rewrite Z.mul_assoc in H. now apply Z.mul_reg_r in H; [|lia].
  - replace (-8 - M) with (- (e + 8) + (e - M)) in H by lia.
    rewrite pow10_split in H by lia.
    assert (0 < 10 ^ (e - M)) by (apply Z.pow_pos_nonneg; lia).
    assert (0 < 10 ^ (- (e + 8))) by (apply Z.pow_pos_nonneg; lia).
    rewrite Z.mul_assoc in H. apply Z.mul_reg_r in H; [|lia].
    rewrite H. apply Z.quot_mul. lia.
Qed.

(** [balance == funded - spent], brought to one scale. *)
Lemma numEq_sub_scaled b f s M :
  numEq b (sub f s) = true ->
  M <= expo b -> M <= expo f -> M <= expo s ->
  coef b * 10 ^ (expo b - M)
  = coef f * 10 ^ (expo f - M) - coef s * 10 ^ (expo s - M).
Proof.
  destruct b as [cb eb], f as [cf ef], s as [cs es].
  unfold numEq, sub, isZero. cbn [coef expo]. intros H Hb Hf Hs.
  apply Z.eqb_eq in H.
  set (m := Z.min ef es) in *. set (m' := Z.min eb m) in *.
  assert (Hm : m <= ef /\ m <= es /\ M <= m) by (unfold m; lia).
  assert (Hm' : m' <= eb /\ m' <= m /\ M <= m') by (unfold m'; lia).
  replace (eb - M) with ((eb - m') + (m' - M)) by lia.
  replace (ef - M) with ((ef - m) + ((m - m') + (m' - M))) by lia.
  replace (es - M) with ((es - m) + ((m - m') + (m' - M))) by lia.
  rewrite !pow10_split by lia.
  set (p1 := 10 ^ (eb - m')) in *. set (p2 := 10 ^ (ef - m)) in *.
  set (p3 := 10 ^ (es - m)) in *. set (p4 := 10 ^ (m - m')) in *.
  set (p5 := 10 ^ (m' - M)).
  assert (H' : cb * p1 = (cf * p2 - cs * p3) * p4) by lia.
  replace (cb * (p1 * p5)) with ((cb * p1) * p5) by ring.
  rewrite H'. ring.
Qed.

Lemma baseUnits_sub b f s :
  wholeBaseUnits f -> wholeBaseUnits s -> numEq b (sub f s) = true ->
  baseUnits b = baseUnits f - baseUnits s.
Proof.
  intros Hf Hs Heq.
  set (M := Z.min (Z.min (expo b) (Z.min (expo f) (expo s))) (-8)).
  assert (HM : M <= expo b /\ M <= expo f /\ M <= expo s /\ M <= -8)
    by (unfold M; lia).
  apply (scaled_baseUnits b M); [lia | lia |].
  rewrite (numEq_sub_scaled b f s M Heq) by lia.
  rewrite (whole_scaled f M Hf), (whole_scaled s M Hs) by lia.
  ring.
Qed.

End Balance.

(** * The properties of the specification *)

Section Claims.

Lemma isIntegerString_showZ z : isIntegerString (showZ z) = true.
Proof.
  unfold showZ.
  destruct (showN_digits (Z.abs_N z)) as (ds & Hne & Hall & -> & _).
  destruct ds as [|d r]; [congruence|].
  pose proof (allDigits_show _ Hall) as Hdigits.
  destruct (z <? 0).
  - cbn [String.append isIntegerString Ascii.eqb Bool.eqb andb].
    rewrite Hdigits. reflexivity.
  - cbn [showDigits isIntegerString].
    destruct (digitChar_not_sign d (Forall_inv Hall)) as [-> _].
    exact Hdigits.
Qed.

Lemma Forall2_map_r {A B : Type} (R : A -> B -> Prop) (f : A -> B) (l : list A) :
  (forall a, R a (f a)) -> Forall2 R l (map f l).
Proof. intros H. induction l; cbn; constructor; auto. Qed.




(** C4 (amended).  The meta object of the output has exactly the fields
    by, version, xpub, analysis_date, currency, provider, provider_url,
    gap_limit and unit, each once and in this order: the key is under xpub,
    there is no field key, and each field holds the value [save] is given
    for it. *)
Theorem meta_fields meta data :
  let m := Out.meta (objectOf meta data) in
  Out.keys m
  = [ "by"; "version"; "xpub"; "analysis_date"; "currency"; "provider";
      "provider_url"; "gap_limit"; "unit" ]
  /\ NoDup (Out.keys m)
  /\ Out.get "key" m = None
  /\ Out.get "by" m = Some (Out.Str "xpub scan <https://github.com/LedgerHQ/xpub-scan>")
  /\ Out.get "version" m = Some (Out.Str (version meta))
  /\ Out.get "xpub" m = Some (Out.Str (xpub meta))
  /\ Out.get "analysis_date" m = Some (Out.Str (date meta))
  /\ Out.get "currency" m = Some (Out.Str (currency configuration))
  /\ Out.get "provider" m = Some (Out.Str (providerType configuration))
  /\ Out.get "provider_url" m = Some (Out.Str providerURL)
  /\ Out.get "gap_limit" m = Some (Out.Num GAP_LIMIT)
  /\ Out.get "unit" m = Some (Out.Str "Base unit (i.e., satoshis or equivalent unit)").
Proof.
  intros m. split; [reflexivity|]. split.
  - unfold m. cbn [objectOf Out.meta Out.keys map fst].
    repeat (constructor; [intros H; cbn [In] in H; intuition discriminate|]).
    constructor.
  - repeat split.
Qed.

Lemma substitution_warningText matched before after :
    substitution matched before after warningText = warningText.
  Proof. reflexivity. Qed.

Lemma replace_cut pat rep s before after :
  cut pat s = Some (before, after) ->
  replace pat rep s = before ++ substitution pat before after rep ++ after.
Proof. intros H. unfold replace. now rewrite H. Qed.



(** C7.  Every element of the addresses array of the output object comes
    from one address record of the input, in order, and has its address
    type, its derivation (account and index), its address string, its
    cash-address form, and its balance, funded and spent through
    [toBaseUnit]. *)
Theorem addresses_shape meta data :
  Forall2
    (fun e o =>
       o = {| Out.Address.addressType := Data.Address.addressType e;
              Out.Address.derivation :=
                {| account := account (Data.Address.getDerivation e);
                   index := index (Data.Address.getDerivation e) |};
              Out.Address.address := Data.Address.toString e;
              Out.Address.cashAddress := Data.Address.asCashAddress e;
              Out.Address.balance := toBaseUnit (Data.Address.balance e);
              Out.Address.funded := toBaseUnit (Data.funded (Data.Address.stats e));
              Out.Address.spent := toBaseUnit (Data.spent (Data.Address.stats e)) |})
    (Data.addresses data) (Out.addresses (objectOf meta data)).
Proof.
  apply Forall2_map_r. intros e. destruct (Data.Address.getDerivation e). reflexivity.
Qed.

(** C8.  meta.provider_url is the custom API URL whenever a custom API is
    configured; otherwise it is the default API URL of the asset, the one
    for BCH when the configured symbol is 'BCH' and the general one for
    every other symbol. *)
Theorem provider_url_reflects_mode meta data :
  exists url,
    Out.get "provider_url" (Out.meta (objectOf meta data)) = Some (Out.Str url)
    /\ (forall api, customAPI configuration = Some api -> url = api)
    /\ (customAPI configuration = None -> symbol configuration = "BCH" ->
        url = bch (defaultAPI configuration))
    /\ (customAPI configuration = None -> symbol configuration <> "BCH" ->
        url = general (defaultAPI configuration)).
Proof.
  exists providerURL. split; [reflexivity|]. unfold providerURL.
  repeat split.
  - intros api ->. reflexivity.
  - intros -> ->. reflexivity.
  - intros -> Hne. apply String.eqb_neq in Hne. now rewrite Hne.
Qed.

Lemma take_length n : forall s,
  (n <= String.length s)%nat -> String.length (take n s) = n.
Proof.
  unfold take. induction n as [|n IH]; intros [|c s] H; cbn in *;
    try reflexivity; try lia.
  f_equal. apply IH. lia.
Qed.

Lemma take_prefix n : forall s, prefix (take n s) s = true.
Proof.
  unfold take. induction n as [|n IH]; intros [|c s]; cbn; try reflexivity.
  destruct (ascii_dec c c); [apply IH | congruence].
Qed.

(** C9.  [addressAsLink] is total: with no address it returns the empty
    string; for an address it returns a link whose visible text is the
    address when it has fewer than 45 characters, and its first 45
    characters followed by '...' otherwise. *)
Theorem addressAsLink_total :
  addressAsLink None = ""
  /\ forall address,
      exists url text,
        addressAsLink (Some address)
        = "<a class=" ++ dq ++ "monospaced" ++ dq ++ " href=" ++ dq ++ url ++ dq
          ++ " target=_blank>" ++ text ++ "</a>"
        /\ ((String.length address < 45)%nat -> text = address)
        /\ ((45 <= String.length address)%nat ->
            text = take 45 address ++ "..."
            /\ String.length (take 45 address) = 45%nat
            /\ prefix (take 45 address) address = true).
Proof.
  split; [reflexivity|]. intros address.
  eexists. eexists. split; [reflexivity|]. split.
  - intros Hlt. apply Nat.ltb_lt in Hlt. now rewrite Hlt.
  - intros Hge. split; [|split].
    + apply Nat.ltb_ge in Hge. now rewrite Hge.
    + now apply take_length.
    + apply take_prefix.
Qed.


End Claims.

(** * Further properties of the module *)

Section Further.


Lemma isZero_isInteger x : isZero x = true -> isInteger x = true.
Proof.
  unfold isInteger, rem1, isZero. intros H. apply Z.eqb_eq in H.
  destruct (Z.leb_spec 0 (expo x)); [reflexivity|]. cbn [coef].
  rewrite H. now rewrite Z.rem_0_l by (apply Z.pow_nonzero; lia).
Qed.

Lemma toBitcoin_whole s :
  if isWholeNumberString s
  then exists b, sb.toBitcoin s = Ok b
  else sb.toBitcoin s = Throw notWhole.
Proof.
  unfold isWholeNumberString, sb.toBitcoin.
  destruct (StringToNumber s) as [x|]; [|reflexivity].
  destruct (isInteger x); [eexists|]; reflexivity.
Qed.

Lemma renderAmount_whole s :
  if isWholeNumberString s
  then exists r, renderAmount s = Ok r
  else renderAmount s = Throw notWhole.
Proof.
  pose proof (toBitcoin_whole s) as Hb. unfold renderAmount.
  destruct (looseEqZero s) eqn:Hz.
  - assert (Hw : isWholeNumberString s = true).
    { unfold looseEqZero in Hz. unfold isWholeNumberString.
      destruct (StringToNumber s); [now apply isZero_isInteger | discriminate]. }
    rewrite Hw. eexists. reflexivity.
  - destruct (isWholeNumberString s).
    + destruct Hb as [b ->]. eexists. reflexivity.
    + now rewrite Hb.
Qed.

(** A loop of [saveHTML] goes through exactly when every amount it renders
    is accepted. *)
Lemma cellsOf_whole {A : Set} (f : A -> result (list string))
  (amounts : A -> list string) (l : list A) :
  (forall a, if forallb isWholeNumberString (amounts a)
             then exists c, f a = Ok c
             else f a = Throw notWhole) ->
  if forallb isWholeNumberString (flat_map amounts l)
  then exists c, cellsOf f l = Ok c
  else cellsOf f l = Throw notWhole.
Proof.
  intros Hf. unfold cellsOf.
  assert (H : if forallb isWholeNumberString (flat_map amounts l)
              then exists rows, mapM f l = Ok rows
              else mapM f l = Throw notWhole).
  { induction l as [|a r IH]; [now exists []|].
    cbn [flat_map mapM]. rewrite forallb_app. specialize (Hf a).
    destruct (forallb isWholeNumberString (amounts a)).
    - destruct Hf as [c ->]. cbn [bind andb].
      destruct (forallb isWholeNumberString (flat_map amounts r)).
      + destruct IH as [rows ->]. eexists. reflexivity.
      + now rewrite IH.
    - now rewrite Hf. }
  destruct (forallb isWholeNumberString (flat_map amounts l)).
  - destruct H as [rows ->]. eexists. reflexivity.
  - now rewrite H.
Qed.

Lemma flat_map_singleton {A B : Type} (g : A -> B) (l : list A) :
  flat_map (fun a => [g a]) l = map g l.
Proof. induction l; cbn; congruence. Qed.

Lemma summaryCells_whole e :
  if forallb isWholeNumberString [Out.Summary.balance e]
  then exists c, summaryCells e = Ok c
  else summaryCells e = Throw notWhole.
Proof.
  cbn [forallb]. rewrite andb_true_r. unfold summaryCells.
  pose proof (toBitcoin_whole (Out.Summary.balance e)) as H.
  destruct (isWholeNumberString (Out.Summary.balance e)).
  - destruct H as [b ->]. eexists. reflexivity.
  - now rewrite H.
Qed.

Lemma addressCells_whole e :
  if forallb isWholeNumberString (addressAmounts e)
  then exists c, addressCells e = Ok c
  else addressCells e = Throw notWhole.
Proof.
  unfold addressAmounts, addressCells. cbn [forallb]. rewrite andb_true_r.
  pose proof (renderAmount_whole (Out.Address.balance e)) as H1.
  pose proof (renderAmount_whole (Out.Address.funded e)) as H2.
  pose proof (renderAmount_whole (Out.Address.spent e)) as H3.
  destruct (isWholeNumberString (Out.Address.balance e));
    [destruct H1 as [r1 ->] | now rewrite H1].
  destruct (isWholeNumberString (Out.Address.funded e));
    [destruct H2 as [r2 ->] | now rewrite H2].
  destruct (isWholeNumberString (Out.Address.spent e));
    [destruct H3 as [r3 ->] | now rewrite H3].
  eexists. reflexivity.
Qed.

Lemma transactionCells_whole e :
  if forallb isWholeNumberString [Out.Operation.amount e]
  then exists c, transactionCells e = Ok c
  else transactionCells e = Throw notWhole.
Proof.
  cbn [forallb]. rewrite andb_true_r. unfold transactionCells.
  pose proof (renderAmount_whole (Out.Operation.amount e)) as H.
  destruct (isWholeNumberString (Out.Operation.amount e)).
  - destruct H as [r ->]. eexists. reflexivity.
  - now rewrite H.
Qed.

Lemma comparisonCells_whole e :
  if forallb isWholeNumberString (comparisonAmounts e)
  then exists c, comparisonCells e = Ok c
  else comparisonCells e = Throw notWhole.
Proof.
  unfold comparisonAmounts, comparisonCells.
  destruct (Out.Comparison.imported e) as [i|], (Out.Comparison.actual e) as [a|];
    cbn [List.app forallb]; rewrite ?andb_true_r.
  - pose proof (renderAmount_whole (Out.Imported.amount i)) as H1.
    pose proof (renderAmount_whole (Out.Operation.amount a)) as H2.
    destruct (isWholeNumberString (Out.Imported.amount i));
      [destruct H1 as [r1 ->] | now rewrite H1].
    cbn [bind andb].
    destruct (isWholeNumberString (Out.Operation.amount a));
      [destruct H2 as [r2 ->] | now rewrite H2].
    eexists. reflexivity.
  - pose proof (renderAmount_whole (Out.Imported.amount i)) as H1.
    destruct (isWholeNumberString (Out.Imported.amount i));
      [destruct H1 as [r1 ->] | now rewrite H1].
    eexists. reflexivity.
  - pose proof (renderAmount_whole (Out.Operation.amount a)) as H2.
    cbn [bind].
    destruct (isWholeNumberString (Out.Operation.amount a));
      [destruct H2 as [r2 ->] | now rewrite H2].
    eexists. reflexivity.
  - eexists. reflexivity.
Qed.

Lemma renderReport_whole object :
  if forallb isWholeNumberString (amountsOf object)
  then exists report, renderReport object = Ok report
  else renderReport object = Throw notWhole.
Proof.
  unfold amountsOf, renderReport. rewrite !forallb_app.
  rewrite <- !flat_map_singleton.
  pose proof (cellsOf_whole summaryCells _ (Out.summary object) summaryCells_whole) as H1.
  pose proof (cellsOf_whole addressCells _ (Out.addresses object) addressCells_whole) as H2.
  pose proof (cellsOf_whole transactionCells _ (Out.transactions object)
                transactionCells_whole) as H3.
  destruct (forallb isWholeNumberString
              (flat_map (fun a => [Out.Summary.balance a]) (Out.summary object)));
    [destruct H1 as [c1 ->] | now rewrite H1].
  cbn [bind andb].
  destruct (forallb isWholeNumberString
              (flat_map addressAmounts (Out.addresses object)));
    [destruct H2 as [c2 ->] | now rewrite H2].
  cbn [bind andb].
  destruct (forallb isWholeNumberString
              (flat_map (fun a => [Out.Operation.amount a]) (Out.transactions object)));
    [destruct H3 as [c3 ->] | now rewrite H3].
  cbn [bind andb].
  destruct (Out.comparisons object) as [l|].
  - pose proof (cellsOf_whole comparisonCells _ l comparisonCells_whole) as H4.
    destruct (forallb isWholeNumberString (flat_map comparisonAmounts l));
      [destruct H4 as [c4 ->] | now rewrite H4].
    eexists. reflexivity.
  - eexists. reflexivity.
Qed.


Lemma numEq_scaled x y M :
  M <= expo x -> M <= expo y ->
  coef x * 10 ^ (expo x - M) = coef y * 10 ^ (expo y - M) ->
  numEq x y = true.
Proof.
  intros Hx Hy H. unfold numEq, sub, isZero. cbn [coef].
  set (m := Z.min (expo x) (expo y)).
  assert (Hm : M <= m /\ m <= expo x /\ m <= expo y) by (unfold m; lia).
  replace (expo x - M) with ((expo x - m) + (m - M)) in H by lia.
  replace (expo y - M) with ((expo y - m) + (m - M)) in H by lia.
  rewrite !pow10_split in H by lia.
  assert (0 < 10 ^ (m - M)) by (apply Z.pow_pos_nonneg; lia).
  rewrite !Z.mul_assoc in H. apply Z.mul_reg_r in H; [|lia].
  apply Z.eqb_eq. lia.
Qed.



(** [Number] reads a decimal numeral as the integer it is. *)
Lemma StringToNumber_showZ v : StringToNumber (showZ v) = Some (ofZ v).
Proof.
  unfold showZ.
  destruct (showN_digits (Z.abs_N v)) as (ds & Hne & Hall & -> & Hval).
  pose proof (parseUnsigned_digits ds Hne Hall) as Hparse. rewrite Hval in Hparse.
  destruct (Z.ltb_spec v 0) as [Hneg|Hpos].
  - cbn [String.append StringToNumber Ascii.eqb Bool.eqb andb].
    rewrite Hparse. cbn [coef expo]. unfold ofZ. f_equal. f_equal. lia.
  - destruct (startsWithDigit ds "" Hne Hall) as (c & s & Hs & Hminus & Hplus).
    rewrite append_nil_r in Hs. rewrite Hs in *. cbn [StringToNumber].
    rewrite Hminus, Hplus, Hparse. unfold ofZ. f_equal. f_equal. lia.
Qed.

Lemma toBitcoin_toBaseUnit_small amount :
  Z.abs (baseUnits amount) < 10 ^ 21 ->
  sb.toBitcoin (toBaseUnit amount) = Ok (mkNum (baseUnits amount) (-8)).
Proof.
  intros Hsmall. rewrite (toBaseUnit_small amount Hsmall).
  unfold sb.toBitcoin. rewrite StringToNumber_showZ. reflexivity.
Qed.

Lemma allDigits_append s t : allDigits (s ++ t) = allDigits s && allDigits t.
Proof.
  induction s as [|c s IH]; [reflexivity|]. cbn. rewrite IH. apply andb_assoc.
Qed.

Lemma allDigits_zeros n : allDigits (repeatChar "0" n) = true.
Proof. induction n; [reflexivity | exact IHn]. Qed.

Lemma allDigits_showN n : allDigits (showN n) = true.
Proof.
  destruct (showN_digits n) as (ds & _ & Hall & -> & _). now apply allDigits_show.
Qed.

Lemma take_drop n : forall s, take n s ++ drop n s = s.
Proof.
  unfold take. induction n as [|n IH]; intros [|c s]; cbn; try reflexivity.
  now rewrite IH.
Qed.

Lemma drop_length n : forall s, String.length (drop n s) = (String.length s - n)%nat.
Proof. induction n as [|n IH]; intros [|c s]; cbn; try reflexivity. apply IH. Qed.

Lemma repeatChar_length c n : String.length (repeatChar c n) = n.
Proof. induction n; cbn; congruence. Qed.

Lemma allDigits_take_drop n s :
  allDigits s = true -> allDigits (take n s) = true /\ allDigits (drop n s) = true.
Proof.
  intros H. rewrite <- (take_drop n s), allDigits_append in H.
  now apply andb_true_iff in H.
Qed.

(** The rendering of an amount of [v] base units, in coins with eight
    decimals. *)
Lemma toFixed_coins v :
  Z.abs v < 10 ^ 21 ->
  exists whole frac,
    toFixed (mkNum v (-8)) 8 = whole ++ "." ++ frac
    /\ String.length frac = 8%nat
    /\ allDigits frac = true
    /\ isIntegerString whole = true
    /\ String.length whole
       = ((if (v <? 0)%Z then 1 else 0)
          + (Nat.max 9 (String.length (showN (Z.abs_N v))) - 8))%nat.
Proof.
  intros Hv. unfold toFixed. cbn [coef expo].
  change (0 <=? -8) with false. cbv iota.
  replace (10 ^ (21 - -8) <=? Z.abs v) with false
    by (symmetry; apply Z.leb_gt; change (21 - -8) with 29;
        assert (10 ^ 21 < 10 ^ 29) by reflexivity; lia).
  change (- (-8 + Z.of_nat 8)) with 0. change (0 <? 0) with false. cbv iota.
  change (10 ^ (- 0)) with 1. rewrite Z.mul_1_r.
  replace (Z.to_N (Z.abs v)) with (Z.abs_N v) by lia.
  set (m0 := showN (Z.abs_N v)).
  set (m := repeatChar "0" (9 - String.length m0) ++ m0).
  assert (Hm : allDigits m = true).
  { unfold m, m0. now rewrite allDigits_append, allDigits_zeros, allDigits_showN. }
  assert (Hlen : String.length m = Nat.max 9 (String.length m0)).
  { unfold m. rewrite length_append, repeatChar_length. lia. }
  destruct (allDigits_take_drop (String.length m - 8) m Hm) as [Htake Hdrop].
  assert (Hlt : String.length (take (String.length m - 8) m)
                = (String.length m - 8)%nat) by (apply take_length; lia).
  exists ((if v <? 0 then "-" else "") ++ take (String.length m - 8) m),
         (drop (String.length m - 8) m).
  split; [now rewrite append_assoc|]. split; [rewrite drop_length; lia|].
  split; [exact Hdrop|].
  assert (Hpos : (0 < String.length (take (String.length m - 8) m))%nat) by lia.
  destruct (take (String.length m - 8) m) as [|c t] eqn:Et;
    [cbn [String.length] in Hpos; lia|].
  split.
  - destruct (v <? 0).
    + cbn [String.append isIntegerString Ascii.eqb Bool.eqb andb]. exact Htake.
    + cbn [String.append isIntegerString].
      cbn [allDigits] in Htake. apply andb_true_iff in Htake as [Hc Ht].
      assert (Hminus : Ascii.eqb c "-" = false).
      { destruct (Ascii.eqb_spec c "-") as [->|]; [discriminate Hc | reflexivity]. }
      rewrite Hminus. cbn [allDigits]. now rewrite Hc, Ht.
  - rewrite length_append, Hlt, Hlen. destruct (v <? 0); reflexivity.
Qed.

Lemma cycle_single c n : cycle n (String c "") = repeatChar c n.
Proof. induction n; cbn; congruence. Qed.

Lemma take_all s : take (String.length s) s = s.
Proof. unfold take. induction s as [|c s IH]; cbn; congruence. Qed.

Lemma padStart_filler t :
  padStart t 16 filler = repeatChar (ascii_of_nat 164) (16 - String.length t) ++ t.
Proof.
  unfold padStart, filler, padding.
  destruct (Nat.leb_spec 16 (String.length t)) as [H|H].
  - replace (16 - String.length t)%nat with 0%nat by lia. reflexivity.
  - rewrite cycle_single.
    rewrite <- (repeatChar_length (ascii_of_nat 164) (16 - String.length t)) at 1.
    now rewrite take_all.
Qed.

Lemma lacks_append c s t : lacks c (s ++ t) = lacks c s && lacks c t.
Proof.
  induction s as [|d s IH]; [reflexivity|]. cbn. rewrite IH. apply andb_assoc.
Qed.

Lemma allDigits_lacks_filler s :
  allDigits s = true -> lacks (ascii_of_nat 164) s = true.
Proof.
  induction s as [|c s IH]; [reflexivity|]. cbn [allDigits lacks]. intros H.
  apply andb_true_iff in H as [Hc Hs]. rewrite (IH Hs), andb_true_r.
  destruct (Ascii.eqb_spec c (ascii_of_nat 164)) as [->|]; [discriminate Hc | reflexivity].
Qed.

Lemma isIntegerString_lacks_filler s :
  isIntegerString s = true -> lacks (ascii_of_nat 164) s = true.
Proof.
  destruct s as [|c s]; [discriminate|]. cbn [isIntegerString].
  destruct (Ascii.eqb_spec c "-") as [->|Hc]; intros H.
  - apply andb_true_iff in H as [_ H]. cbn [lacks].
    now rewrite (allDigits_lacks_filler s H).
  - now apply allDigits_lacks_filler.
Qed.

Lemma cut_lacks c : forall t, lacks c t = true -> cut (String c "") t = None.
Proof.
  induction t as [|d t IH]; intros H; [reflexivity|].
  cbn [lacks] in H. apply andb_true_iff in H as [Hd Ht].
  cbn [cut prefix]. destruct (ascii_dec c d) as [->|_].
  - rewrite Ascii.eqb_refl in Hd. discriminate Hd.
  - now rewrite (IH Ht).
Qed.

(** The fillers on the left become as many non-breaking spaces. *)
Lemma join_split_filler k t :
  lacks (ascii_of_nat 164) t = true ->
  join "&nbsp;" (split filler (repeatChar (ascii_of_nat 164) k ++ t))
  = cycle k "&nbsp;" ++ t.
Proof.
  intros Ht. assert (Hpat : filler <> "") by discriminate.
  induction k as [|k IH].
  - cbn [repeatChar String.append cycle]. rewrite (join_split_cut _ _ _ Hpat).
    unfold filler. now rewrite (cut_lacks _ _ Ht).
  - cbn [repeatChar String.append cycle]. rewrite (join_split_cut _ _ _ Hpat).
    unfold filler at 1. cbn [cut prefix].
    destruct (ascii_dec (ascii_of_nat 164) (ascii_of_nat 164)) as [_|Hne];
      [|congruence].
    replace (prefix "" (repeatChar (ascii_of_nat 164) k ++ t)) with true
      by (now destruct (repeatChar (ascii_of_nat 164) k ++ t)).
    cbn [String.length drop String.append]. rewrite IH. reflexivity.
Qed.

(** X5.  [renderAmount] aligns the amounts: for every amount below 10^14
    base units in absolute value, the rendering of the string of
    [toBaseUnit] is the whole part of the amount in coins, a numeral that
    ends at the seventh character cell after non-breaking spaces, followed
    by nine cells: the point and eight decimals, or nine non-breaking
    spaces when the amount in base units is zero. *)
Theorem renderAmount_aligned amount :
  Z.abs (baseUnits amount) < 10 ^ 14 ->
  exists k whole tail,
    renderAmount (toBaseUnit amount)
    = Ok ("<span class=" ++ dq ++ "monospaced" ++ dq ++ ">"
          ++ cycle k "&nbsp;" ++ whole ++ tail ++ "</span>")
    /\ (k + String.length whole = 7)%nat
    /\ isIntegerString whole = true
    /\ (baseUnits amount = 0 -> tail = cycle 9 "&nbsp;")
    /\ (baseUnits amount <> 0 ->
        exists frac, tail = "." ++ frac
                     /\ String.length frac = 8%nat
                     /\ allDigits frac = true).
Proof.
  intros Hsmall.
  assert (Hsmall' : Z.abs (baseUnits amount) < 10 ^ 21).
  { assert (10 ^ 14 < 10 ^ 21) by reflexivity. lia. }
  pose proof (looseEqZero_toBaseUnit amount) as Hloose.
  destruct (Z.eqb_spec (baseUnits amount) 0) as [Hz|Hnz].
  - exists 6%nat, "0", (cycle 9 "&nbsp;").
    unfold renderAmount. rewrite Hloose.
    split; [reflexivity|]. split; [reflexivity|]. split; [reflexivity|].
    split; [reflexivity | congruence].
  - destruct (toFixed_coins (baseUnits amount) Hsmall')
      as (whole & frac & Hfixed & Hfrac & Hdigits & Hwhole & Hlen).
    assert (Hshort : (String.length (showN (Z.abs_N (baseUnits amount))) <= 14)%nat).
    { assert (Hl : forall ds, String.length (showDigits ds) = List.length ds).
      { induction ds; cbn; congruence. }
      unfold showN. destruct (Z.abs_N (baseUnits amount)) eqn:E; [cbn; lia|].
      rewrite Hl. apply digits_length_le. rewrite <- E.
      change (10 ^ N.of_nat 14)%N with (Z.to_N (10 ^ 14)). lia. }
    exists (16 - String.length (toFixed (mkNum (baseUnits amount) (-8)) 8))%nat,
           whole, ("." ++ frac).
    split; [|split; [|split; [exact Hwhole | split; [congruence|]]]].
    + unfold renderAmount.
      rewrite Hloose, (toBitcoin_toBaseUnit_small amount Hsmall').
      cbn [bind]. rewrite padStart_filler, join_split_filler.
      * rewrite Hfixed, !append_assoc. reflexivity.
      * rewrite Hfixed, !lacks_append.
        rewrite (isIntegerString_lacks_filler whole Hwhole).
        now rewrite (allDigits_lacks_filler frac Hdigits).
    + rewrite Hfixed, !length_append, Hfrac, Hlen. cbn [String.length].
      destruct (baseUnits amount <? 0); lia.
    + intros _. exists frac. repeat split; assumption.
Qed.

Lemma mapChars_append f s t : mapChars f (s ++ t) = mapChars f s ++ mapChars f t.
Proof. induction s as [|c s IH]; cbn; congruence. Qed.

Lemma lowerChar_space c : Ascii.eqb (lowerChar c) " " = Ascii.eqb c " ".
Proof. destruct c as [[] [] [] [] [] [] [] []]; reflexivity. Qed.

Lemma lacks_space_toLowerCase s : lacks " " (toLowerCase s) = lacks " " s.
Proof.
  unfold toLowerCase. induction s as [|c s IH]; [reflexivity|].
  cbn [mapChars lacks]. now rewrite lowerChar_space, IH.
Qed.

Lemma cut_after_prefix c p : forall pre x,
  lacks c pre = true ->
  cut (String c p) (pre ++ x)
  = match cut (String c p) x with
    | Some (b, a) => Some (pre ++ b, a)
    | None => None
    end.
Proof.
  induction pre as [|d pre IH]; intros x H.
  - cbn [String.append]. now destruct (cut (String c p) x) as [[b a]|].
  - cbn [lacks] in H. apply andb_true_iff in H as [Hd Hpre].
    cbn [String.append cut prefix]. destruct (ascii_dec c d) as [->|_].
    + rewrite Ascii.eqb_refl in Hd. discriminate Hd.
    + rewrite (IH x Hpre). now destruct (cut (String c p) x) as [[b a]|].
Qed.

Lemma cut_here pat x : cut pat (pat ++ x) = Some ("", x).
Proof.
  destruct (pat ++ x) as [|d r] eqn:E.
  - destruct pat; [|discriminate]. cbn in E. subst. reflexivity.
  - cbn [cut]. rewrite <- E, prefix_app, drop_append. reflexivity.
Qed.

(** The first occurrence of a pattern is where no earlier text has its
    first character. *)
Lemma cut_found c p pre x :
  lacks c pre = true ->
  cut (String c p) (pre ++ String c p ++ x) = Some (pre, x).
Proof.
  intros H. rewrite (cut_after_prefix c p pre _ H), cut_here.
  now rewrite append_nil_r.
Qed.

Lemma cut_lacks_first c p : forall t, lacks c t = true -> cut (String c p) t = None.
Proof.
  intros t H. rewrite <- (append_nil_r t), (cut_after_prefix c p t "" H).
  reflexivity.
Qed.

Lemma substitution_plain matched before after rep :
  lacks "$" rep = true -> substitution matched before after rep = rep.
Proof.
  induction rep as [|c r IH]; [reflexivity|]. cbn [lacks substitution]. intros H.
  apply andb_true_iff in H as [Hc Hr]. apply negb_true_iff in Hc.
  now rewrite Hc, (IH Hr).
Qed.

(** X6.  [getCoinName] is the currency in lower case with its first space,
    and only its first, turned into a hyphen: a name without a space is
    only lowered, and in a name with several spaces the later ones stay. *)
Theorem getCoinName_first_space :
  (lacks " " (currency configuration) = true ->
   getCoinName = toLowerCase (currency configuration))
  /\ (forall a b,
        currency configuration = a ++ " " ++ b ->
        lacks " " a = true ->
        getCoinName = toLowerCase a ++ "-" ++ toLowerCase b).
Proof.
  unfold getCoinName, replace. split.
  - intros H. rewrite <- lacks_space_toLowerCase in H.
    now rewrite (cut_lacks_first " " "" _ H).
  - intros a b -> H. rewrite <- lacks_space_toLowerCase in H.
    unfold toLowerCase in *. rewrite mapChars_append. cbn [mapChars String.append].
    change (lowerChar " ") with " "%char.
    pose proof (cut_found " " "" (mapChars lowerChar a) (mapChars lowerChar b) H)
      as Hcut.
    cbn [String.append] in Hcut. rewrite Hcut. reflexivity.
Qed.

(** X7.  The links of the report point to the explorer: when the explorer
    address is a text without braces followed by
    [{coin}/{type}/{item}], and neither the coin name nor the address or
    the transaction identifier has a brace or a dollar sign, the link of an
    address goes to [<coin>/address/<address>] and the link of a
    transaction to [<coin>/transaction/<txid>] under that text. *)
Theorem links_point_to_explorer base item :
  EXTERNAL_EXPLORER_URL = base ++ "{coin}/{type}/{item}" ->
  lacks "{" base = true ->
  lacks "{" getCoinName = true ->
  lacks "$" getCoinName = true ->
  lacks "$" item = true ->
  addressAsLink (Some item)
  = "<a class=" ++ dq ++ "monospaced" ++ dq ++ " href=" ++ dq
    ++ (base ++ getCoinName ++ "/address/" ++ item) ++ dq
    ++ " target=_blank>"
    ++ (if (String.length item <? 45)%nat then item else take 45 item ++ "...")
    ++ "</a>"
  /\ renderTxid item
     = "<a class=" ++ dq ++ "monospaced" ++ dq ++ " href=" ++ dq
       ++ (base ++ getCoinName ++ "/transaction/" ++ item) ++ dq
       ++ " target=_blank>" ++ (take 10 item ++ "...") ++ "</a>".
Proof.
  intros Hurl Hbase Hcoin Hcoin' Hitem.
  assert (Hstep1 : replace "{coin}" getCoinName EXTERNAL_EXPLORER_URL
                   = base ++ getCoinName ++ "/{type}/{item}").
  { rewrite Hurl. unfold replace.
    pose proof (cut_found "{" "coin}" base "/{type}/{item}" Hbase) as Hcut.
    cbn [String.append] in Hcut |- *. rewrite Hcut.
    now rewrite (substitution_plain _ _ _ _ Hcoin'). }
  assert (Hstep2 : forall kind,
             lacks "{" kind = true -> lacks "$" kind = true ->
             replace "{item}" item
               (replace "{type}" kind (base ++ getCoinName ++ "/{type}/{item}"))
             = base ++ getCoinName ++ "/" ++ kind ++ "/" ++ item).
  { intros kind Hk Hk'. unfold replace.
    assert (H1 : lacks "{" (base ++ getCoinName ++ "/") = true).
    { now rewrite !lacks_append, Hbase, Hcoin. }
    pose proof (cut_found "{" "type}" (base ++ getCoinName ++ "/") "/{item}" H1)
      as Hcut1.
    rewrite !append_assoc in Hcut1. cbn [String.append] in Hcut1 |- *.
    rewrite Hcut1, (substitution_plain _ _ _ _ Hk').
    assert (H2 : lacks "{" (base ++ getCoinName ++ "/" ++ kind ++ "/") = true).
    { now rewrite !lacks_append, Hbase, Hcoin, Hk. }
    pose proof (cut_found "{" "item}" (base ++ getCoinName ++ "/" ++ kind ++ "/") "" H2)
      as Hcut2.
    rewrite !append_assoc in Hcut2. cbn [String.append] in Hcut2 |- *.
    rewrite !append_assoc. cbn [String.append].
    rewrite Hcut2, (substitution_plain _ _ _ _ Hitem).
    rewrite !append_assoc. cbn [String.append].
    now rewrite append_nil_r, append_assoc. }
  split.
  - unfold addressAsLink. rewrite Hstep1, (Hstep2 "address" eq_refl eq_refl).
    reflexivity.
  - unfold renderTxid. rewrite Hstep1, (Hstep2 "transaction" eq_refl eq_refl).
    reflexivity.
Qed.

Lemma gentle_replace p rep : gentle (replace (String "{" p) rep).
Proof.
  split.
  - intros pre rest H. unfold replace. rewrite (cut_after_prefix _ _ _ _ H).
    destruct (cut (String "{" p) rest) as [[b a]|]; eexists.
    + rewrite append_assoc. reflexivity.
    + reflexivity.
  - intros s H. unfold replace. now rewrite (cut_lacks_first _ _ _ H).
Qed.

Lemma gentle_join_split p v : gentle (fun s => join v (split (String "{" p) s)).
Proof.
  assert (Hpat : String "{" p <> "") by discriminate.
  split.
  - intros pre rest H. rewrite (join_split_cut _ _ _ Hpat).
    rewrite (cut_after_prefix _ _ _ _ H).
    destruct (cut (String "{" p) rest) as [[b a]|]; eexists.
    + rewrite append_assoc. reflexivity.
    + reflexivity.
  - intros s H. rewrite (join_split_cut _ _ _ Hpat).
    now rewrite (cut_lacks_first _ _ _ H).
Qed.

Lemma gentle_compose f g : gentle f -> gentle g -> gentle (fun s => g (f s)).
Proof.
  intros [Hf1 Hf2] [Hg1 Hg2]. split.
  - intros pre rest H. destruct (Hf1 pre rest H) as [r1 ->]. now apply Hg1.
  - intros s H. rewrite (Hf2 s H). now apply Hg2.
Qed.

Lemma gentle_metaStage object : gentle (metaStage object).
Proof.
  unfold metaStage. generalize (Out.keys (Out.meta object)) as keys.
  induction keys as [|key keys IH].
  - split; intros; cbn; eauto.
  - cbn [fold_left].
    apply (gentle_compose
             (fun s => join (Out.show (Out.get key (Out.meta object)))
                            (split ("{" ++ key ++ "}") s))
             (fun s => fold_left
                         (fun report key0 =>
                            join (Out.show (Out.get key0 (Out.meta object)))
                                 (split ("{" ++ key0 ++ "}") report))
                         keys s)).
    + apply (gentle_join_split (key ++ "}")).
    + exact IH.
Qed.

Lemma gentle_warningStage object : gentle (warningStage object).
Proof.
  unfold warningStage.
  destruct (Out.get "provider" (Out.meta object)) as [[s|n]|];
    try apply gentle_replace.
  repeat match goal with
         | |- context [match ?x with EmptyString => _ | String _ _ => _ end] =>
             destruct x
         | |- context [match ?c with Ascii _ _ _ _ _ _ _ _ => _ end] => destruct c
         | |- context [match ?b with true => _ | false => _ end] => destruct b
         end; apply (gentle_replace "warning}").
Qed.

(** The report is the template gone through gentle stages. *)
Lemma renderReport_gentle object report :
  renderReport object = Ok report ->
  exists stage, gentle stage /\ report = stage reportTemplate.
Proof.
  unfold renderReport.
  destruct (cellsOf summaryCells (Out.summary object)) as [c1|]; [|discriminate].
  cbn [bind].
  destruct (cellsOf addressCells (Out.addresses object)) as [c2|]; [|discriminate].
  cbn [bind].
  destruct (cellsOf transactionCells (Out.transactions object)) as [c3|];
    [|discriminate].
  cbn [bind].
  destruct (match Out.comparisons object with
            | Some l => cellsOf comparisonCells l
            | None => Ok []
            end) as [c4|]; [|discriminate].
  cbn [bind]. intros H.
  assert (H' : exists x,
             report
             = replace "{comparisons}" x
                 (replace "{transactions}" (join "" c3)
                    (warningStage object
                       (replace "{addresses}" (join "" c2)
                          (replace "{summary}" (join "" c1)
                             (metaStage object reportTemplate)))))).
  { destruct c4; injection H as <-; eexists; reflexivity. }
  destruct H' as [x ->].
  exists (fun s => replace "{comparisons}" x
                     (replace "{transactions}" (join "" c3)
                        (warningStage object
                           (replace "{addresses}" (join "" c2)
                              (replace "{summary}" (join "" c1)
                                 (metaStage object s)))))).
  split; [|reflexivity].
  apply (gentle_compose _ (replace "{comparisons}" x)); [|apply gentle_replace].
  apply (gentle_compose _ (replace "{transactions}" (join "" c3)));
    [|apply gentle_replace].
  apply (gentle_compose _ (warningStage object)); [|apply gentle_warningStage].
  apply (gentle_compose _ (replace "{addresses}" (join "" c2)));
    [|apply gentle_replace].
  apply (gentle_compose _ (replace "{summary}" (join "" c1)));
    [|apply gentle_replace].
  apply gentle_metaStage.
Qed.

(** X8.  [saveHTML] only fills placeholders: whatever the object, the
    report begins with the text of the template up to its first opening
    brace, and a template without braces comes out unchanged. *)
Theorem template_text_kept object report :
  renderReport object = Ok report ->
  (forall pre rest,
      reportTemplate = pre ++ rest -> lacks "{" pre = true ->
      exists rest', report = pre ++ rest')
  /\ (lacks "{" reportTemplate = true -> report = reportTemplate).
Proof.
  intros H. destruct (renderReport_gentle object report H) as (stage & [H1 H2] & ->).
  split.
  - intros pre rest -> Hpre. now apply H1.
  - intros Hplain. now apply H2.
Qed.

Lemma comparisonCells_nonempty e cells :
  comparisonCells e = Ok cells -> cells <> [].
Proof.
  unfold comparisonCells.
  destruct (Out.Comparison.imported e) as [i|];
    [destruct (renderAmount (Out.Imported.amount i)); [|discriminate]|];
    cbn [bind];
    (destruct (Out.Comparison.actual e) as [o|];
     [destruct (renderAmount (Out.Operation.amount o)); [|discriminate]|]);
    cbn [bind]; intros H; injection H as <-; discriminate.
Qed.

Lemma cellsOf_comparisons_nonempty l cells :
  cellsOf comparisonCells l = Ok cells -> l <> [] -> cells <> [].
Proof.
  destruct l as [|e l]; [congruence|]. intros H _.
  unfold cellsOf in H. cbn [mapM] in H.
  destruct (comparisonCells e) as [c|] eqn:He; [|discriminate].
  cbn [bind] in H.
  destruct (mapM comparisonCells l) as [cs|]; [|discriminate].
  cbn [bind List.concat] in H. injection H as <-.
  pose proof (comparisonCells_nonempty e c He) as Hc.
  destruct c; [congruence | discriminate].
Qed.

(** X9.  The Comparisons tab depends on there being a comparison: an empty
    array of comparisons gives the report of no comparisons at all, the
    placeholder replaced by the empty string; an array with at least one
    element gives the same report with the table of its rows in that
    place. *)
Theorem comparisons_tab meta addresses summary transactions l :
  let object comparisons :=
    {| Out.meta := meta; Out.addresses := addresses; Out.summary := summary;
       Out.transactions := transactions; Out.comparisons := comparisons |} in
  renderReport (object (Some [])) = renderReport (object None)
  /\ forall report,
      renderReport (object (Some l)) = Ok report -> l <> [] ->
      exists base cells,
        cellsOf comparisonCells l = Ok cells
        /\ cells <> []
        /\ renderReport (object None) = Ok (replace "{comparisons}" "" base)
        /\ report
           = replace "{comparisons}"
               (replace "{comparisons}" (join "" cells) comparisonsTemplate) base.
Proof.
  intros object. split; [reflexivity|].
  intros report H Hl. unfold renderReport in *.
  unfold object in *. cbn [Out.summary Out.addresses Out.transactions Out.comparisons] in *.
  destruct (cellsOf summaryCells summary) as [c1|]; [|discriminate].
  cbn [bind] in *.
  destruct (cellsOf addressCells addresses) as [c2|]; [|discriminate].
  cbn [bind] in *.
  destruct (cellsOf transactionCells transactions) as [c3|]; [|discriminate].
  cbn [bind] in *.
  destruct (cellsOf comparisonCells l) as [c4|] eqn:Hc4; [|discriminate].
  cbn [bind] in H.
  pose proof (cellsOf_comparisons_nonempty l c4 Hc4 Hl) as Hne.
  destruct c4 as [|c c4]; [congruence|].
  injection H as <-.
  eexists. exists (c :: c4).
  split; [reflexivity|]. split; [exact Hne|]. split; reflexivity.
Qed.

(** X10.  [save] keeps what is not an amount: every transaction and every
    side of a comparison of the output comes from the one at the same
    position of the input with its date, block, txid, address and operation
    type, a comparison with its status, and an absent side stays absent; the
    cash address of an operation is [toUnprefixedCashAddress] of its
    address, whatever cash address the input has. *)
Theorem operations_keep_fields meta data :
  Forall2 operationKept
    (Data.transactions data) (Out.transactions (objectOf meta data))
  /\ optionRel (Forall2 comparisonKept)
       (Data.comparisons data) (Out.comparisons (objectOf meta data)).
Proof.
  split.
  - apply Forall2_map_r. intros e. repeat split.
  - cbn [objectOf Out.comparisons]. unfold comparisonsOf.
    destruct (Data.comparisons data) as [l|]; cbn [optionRel]; [|exact I].
    apply Forall2_map_r. intros e. unfold comparisonKept.
    cbn [Out.Comparison.status Out.Comparison.imported Out.Comparison.actual].
    split; [reflexivity|].
    destruct (Data.Comparison.imported e), (Data.Comparison.actual e);
      cbn [optionRel]; repeat split.
Qed.

End Further.

End SaveAnalysis.

(** * The properties on sample inputs *)

Notation "'exampleObject'" :=
  (objectOf exampleConfiguration (ofZ 20) (fun _ => None) exampleMeta exampleData)
  (only parsing).

Notation "'exampleSave'" :=
  (save exampleConfiguration (ofZ 20) exampleExplorer exampleTemplate
        (fun _ => None) (fun _ => "{}") (fun html => html)
        "/opt/xpub-scan/build/actions" exampleMeta exampleData)
  (only parsing).

(** ** The functions on small inputs *)

Example toBaseUnit_whole : toBaseUnit (mkNum 15 (-1)) = "150000000".
Proof. reflexivity. Qed.

Example toBaseUnit_truncates : toBaseUnit (mkNum (-15) (-9)) = "-1".
Proof. reflexivity. Qed.

Example toString_small : toString (mkNum 1 (-8)) = "1e-8".
Proof. reflexivity. Qed.

Example toFixed_bitcoin : toFixed (mkNum 150000001 (-8)) 8 = "1.50000001".
Proof. reflexivity. Qed.

Example renderAmount_zero :
  renderAmount "0"
  = Ok ("<span class=" ++ dq ++ "monospaced" ++ dq ++ ">"
        ++ "&nbsp;&nbsp;&nbsp;&nbsp;&nbsp;&nbsp;0"
        ++ "&nbsp;&nbsp;&nbsp;&nbsp;&nbsp;&nbsp;&nbsp;&nbsp;&nbsp;</span>").
Proof. reflexivity. Qed.

Example renderAmount_one_coin :
  renderAmount "100000000"
  = Ok ("<span class=" ++ dq ++ "monospaced" ++ dq ++ ">"
        ++ "&nbsp;&nbsp;&nbsp;&nbsp;&nbsp;&nbsp;1.00000000</span>").
Proof. reflexivity. Qed.

Example renderAmount_throws : exists e, renderAmount "1.5" = Throw e.
Proof. eexists. reflexivity. Qed.

Example addressAsLink_example :
  addressAsLink exampleConfiguration exampleExplorer (Some exampleAddress)
  = "<a class=" ++ dq ++ "monospaced" ++ dq ++ " href=" ++ dq
    ++ "https://explorer.example/bitcoin/address/1MYaYeZhDpgm3YtvqBMXQQNabYCzc7NqgF"
    ++ dq ++ " target=_blank>1MYaYeZhDpgm3YtvqBMXQQNabYCzc7NqgF</a>".
Proof. reflexivity. Qed.

Example renderTxid_example :
  renderTxid exampleConfiguration exampleExplorer "4a5e1e4baab89f3a32518a88c31bc87f"
  = "<a class=" ++ dq ++ "monospaced" ++ dq ++ " href=" ++ dq
    ++ "https://explorer.example/bitcoin/transaction/4a5e1e4baab89f3a32518a88c31bc87f"
    ++ dq ++ " target=_blank>4a5e1e4baa...</a>".
Proof. reflexivity. Qed.

Example replace_first_only : replace "{x}" "$&$$" "a{x}b{x}" = "a{x}$b{x}".
Proof. reflexivity. Qed.

Example split_join_all : join "-" (split "{x}" "a{x}b{x}") = "a-b-".
Proof. reflexivity. Qed.







(** C4, counterexample.  The meta object has no field 'key' (the key is
    under 'xpub') and has a field 'by'. *)
Lemma meta_has_no_key_field :
  ~ (forall k,
        In k (Out.keys (Out.meta exampleObject))
        <-> In k [ "version"; "key"; "analysis_date"; "currency"; "provider";
                   "provider_url"; "gap_limit"; "unit" ])
  /\ Out.get "key" (Out.meta exampleObject) = None
  /\ Out.get "xpub" (Out.meta exampleObject) = Some (Out.Str "xpub6C")
  /\ In "by" (Out.keys (Out.meta exampleObject)).
Proof.
  split; [|split; [|split]]; try reflexivity.
  - intros H. destruct (H "key") as [_ Hback].
    assert (Hin : In "key" (Out.keys (Out.meta exampleObject))).
    { apply Hback. cbn. tauto. }
    cbn in Hin. repeat (destruct Hin as [Hin|Hin]; [discriminate Hin|]).
    exact Hin.
  - cbn. tauto.
Qed.



(** C8, witness: no custom API and the symbol BTC. *)
Lemma provider_url_reflects_mode_witness :
  customAPI exampleConfiguration = None
  /\ symbol exampleConfiguration <> "BCH"
  /\ Out.get "provider_url" (Out.meta exampleObject)
     = Some (Out.Str "https://btc.example/api").
Proof.
  split; [reflexivity|]. split; [discriminate|].
  destruct (provider_url_reflects_mode exampleConfiguration (ofZ 20)
              (fun _ => None) exampleMeta exampleData)
    as (url & Hget & _ & _ & Hgeneral).
  rewrite (Hgeneral eq_refl ltac:(discriminate)) in Hget. exact Hget.
Defined.

(** C9, witness: an address of 34 characters. *)
Lemma addressAsLink_total_witness :
  (String.length exampleAddress < 45)%nat
  /\ exists url,
       addressAsLink exampleConfiguration exampleExplorer (Some exampleAddress)
       = "<a class=" ++ dq ++ "monospaced" ++ dq ++ " href=" ++ dq ++ url ++ dq
         ++ " target=_blank>" ++ exampleAddress ++ "</a>".
Proof.
  assert (Hlen : (String.length exampleAddress < 45)%nat) by (cbn; lia).
  split; [exact Hlen|].
  destruct (addressAsLink_total exampleConfiguration exampleExplorer) as [_ H].
  destruct (H exampleAddress) as (url & text & Hlink & Hshort & _).
  exists url. rewrite (Hshort Hlen) in Hlink. exact Hlink.
Defined.


(** ** The further properties on sample inputs *)

Notation "'comparedObject'" :=
  (fun comparisons =>
     {| Out.meta := [ ("xpub", Out.Str "xpub6C") ];
        Out.addresses := [];
        Out.summary := [];
        Out.transactions := [];
        Out.comparisons := comparisons |})
  (only parsing).


(** X5, witness: one coin and a half, and nothing. *)
Lemma renderAmount_aligned_witness :
  Z.abs (baseUnits (mkNum 15 (-1))) < 10 ^ 14
  /\ baseUnits (mkNum 15 (-1)) <> 0
  /\ baseUnits (ofZ 0) = 0
  /\ (exists k whole frac,
        renderAmount (toBaseUnit (mkNum 15 (-1)))
        = Ok ("<span class=" ++ dq ++ "monospaced" ++ dq ++ ">"
              ++ cycle k "&nbsp;" ++ whole ++ ("." ++ frac) ++ "</span>")
        /\ (k + String.length whole = 7)%nat
        /\ String.length frac = 8%nat)
  /\ exists k whole,
       renderAmount (toBaseUnit (ofZ 0))
       = Ok ("<span class=" ++ dq ++ "monospaced" ++ dq ++ ">"
             ++ cycle k "&nbsp;" ++ whole ++ cycle 9 "&nbsp;" ++ "</span>")
       /\ (k + String.length whole = 7)%nat.
Proof.
  assert (Hsmall : Z.abs (baseUnits (mkNum 15 (-1))) < 10 ^ 14) by reflexivity.
  assert (Hnonzero : baseUnits (mkNum 15 (-1)) <> 0) by discriminate.
  assert (Hzero : baseUnits (ofZ 0) = 0) by reflexivity.
  split; [exact Hsmall|]. split; [exact Hnonzero|]. split; [exact Hzero|]. split.
  - destruct (renderAmount_aligned (mkNum 15 (-1)) Hsmall)
      as (k & whole & tail & Hrender & Hwidth & _ & _ & Htail).
    destruct (Htail Hnonzero) as (frac & -> & Hlen & _).
    exists k, whole, frac. repeat split; assumption.
  - destruct (renderAmount_aligned (ofZ 0) ltac:(reflexivity))
      as (k & whole & tail & Hrender & Hwidth & _ & Htail & _).
    rewrite (Htail Hzero) in Hrender.
    exists k, whole. split; assumption.
Defined.

(** X6, witness: a name of one word and a name of three. *)
Lemma getCoinName_first_space_witness :
  lacks " " (currency exampleConfiguration) = true
  /\ getCoinName exampleConfiguration = "bitcoin"
  /\ currency cashConfiguration = "Bitcoin" ++ " " ++ "Cash ABC"
  /\ lacks " " "Bitcoin" = true
  /\ getCoinName cashConfiguration = "bitcoin-cash abc".
Proof.
  split; [reflexivity|]. split.
  - exact (proj1 (getCoinName_first_space exampleConfiguration) eq_refl).
  - split; [reflexivity|]. split; [reflexivity|].
    exact (proj2 (getCoinName_first_space cashConfiguration)
             "Bitcoin" "Cash ABC" eq_refl eq_refl).
Defined.

(** X7, witness: the sample explorer and address. *)
Lemma links_point_to_explorer_witness :
  exampleExplorer = "https://explorer.example/" ++ "{coin}/{type}/{item}"
  /\ lacks "{" "https://explorer.example/" = true
  /\ lacks "{" (getCoinName exampleConfiguration) = true
  /\ lacks "$" (getCoinName exampleConfiguration) = true
  /\ lacks "$" exampleAddress = true
  /\ addressAsLink exampleConfiguration exampleExplorer (Some exampleAddress)
     = "<a class=" ++ dq ++ "monospaced" ++ dq ++ " href=" ++ dq
       ++ "https://explorer.example/bitcoin/address/1MYaYeZhDpgm3YtvqBMXQQNabYCzc7NqgF"
       ++ dq ++ " target=_blank>1MYaYeZhDpgm3YtvqBMXQQNabYCzc7NqgF</a>"
  /\ renderTxid exampleConfiguration exampleExplorer exampleAddress
     = "<a class=" ++ dq ++ "monospaced" ++ dq ++ " href=" ++ dq
       ++ "https://explorer.example/bitcoin/transaction/1MYaYeZhDpgm3YtvqBMXQQNabYCzc7NqgF"
       ++ dq ++ " target=_blank>1MYaYeZhDp...</a>".
Proof.
  do 5 (split; [reflexivity|]).
  exact (links_point_to_explorer exampleConfiguration exampleExplorer
           "https://explorer.example/" exampleAddress
           eq_refl eq_refl eq_refl eq_refl eq_refl).
Defined.

(** X8, witness: the sample template, and a template without placeholder. *)
Lemma template_text_kept_witness :
  lacks "{" "<html><p>" = true
  /\ lacks "{" "<html>nothing to fill</html>" = true
  /\ (exists report rest,
        renderReport exampleConfiguration exampleExplorer exampleTemplate exampleObject
        = Ok report
        /\ report = "<html><p>" ++ rest)
  /\ renderReport exampleConfiguration exampleExplorer
       "<html>nothing to fill</html>" exampleObject
     = Ok "<html>nothing to fill</html>".
Proof.
  split; [reflexivity|]. split; [reflexivity|]. split.
  - destruct (renderReport exampleConfiguration exampleExplorer exampleTemplate
                exampleObject) as [report|e] eqn:Hreport;
      [|vm_compute in Hreport; discriminate Hreport].
    destruct (template_text_kept exampleConfiguration exampleExplorer
                exampleTemplate exampleObject report Hreport) as [Hpre _].
    destruct (Hpre "<html><p>"
                "{xpub}</p><p>{warning}</p>{summary}{addresses}{transactions}{comparisons}</html>"
                eq_refl eq_refl) as [rest Hrest].
    exists report, rest. split; [reflexivity | exact Hrest].
  - destruct (renderReport exampleConfiguration exampleExplorer
                "<html>nothing to fill</html>" exampleObject)
      as [report|e] eqn:Hreport;
      [|vm_compute in Hreport; discriminate Hreport].
    destruct (template_text_kept exampleConfiguration exampleExplorer
                "<html>nothing to fill</html>" exampleObject report Hreport)
      as [_ Hplain].
    rewrite (Hplain eq_refl). reflexivity.
Defined.

(** X9, witness: one comparison, of an imported operation found on the
    chain. *)
Lemma comparisons_tab_witness :
  [exampleMatch] <> []
  /\ exists report base cells,
       renderReport exampleConfiguration exampleExplorer exampleTemplate
         (comparedObject (Some [exampleMatch])) = Ok report
       /\ cellsOf (comparisonCells exampleConfiguration exampleExplorer) [exampleMatch]
          = Ok cells
       /\ List.length cells = 10%nat
       /\ renderReport exampleConfiguration exampleExplorer exampleTemplate
            (comparedObject None) = Ok (replace "{comparisons}" "" base)
       /\ report
          = replace "{comparisons}"
              (replace "{comparisons}" (join "" cells) comparisonsTemplate) base.
Proof.
  assert (Hne : [exampleMatch] <> []) by discriminate.
  split; [exact Hne|].
  destruct (renderReport exampleConfiguration exampleExplorer exampleTemplate
              (comparedObject (Some [exampleMatch]))) as [report|e] eqn:Hreport;
    [|vm_compute in Hreport; discriminate Hreport].
  destruct (comparisons_tab exampleConfiguration exampleExplorer exampleTemplate
              [ ("xpub", Out.Str "xpub6C") ] [] [] [] [exampleMatch]) as [_ Hl].
  destruct (Hl report Hreport Hne) as (base & cells & Hcells & _ & Hnone & Htab).
  exists report, base, cells.
  split; [reflexivity|]. split; [exact Hcells|]. split.
  - vm_compute in Hcells. injection Hcells as <-. reflexivity.
  - split; assumption.
Defined.
